(** * Transaction reconciliation: the exact matcher and the transaction model

    A shallow embedding of
    - [internal/domain] (transaction and source types),
    - [internal/domain/transaction] (the [Transaction] entity),
    - [pkg/matcher] (match result, statistics and the [ExactMatcher]),
    followed by the properties of the matching engine.

    Go's [float64] is Rocq's primitive binary64 [float]; Go's [int] is a
    64-bit two's complement integer, carried as a [Z] with the wrap-around
    written out; Go maps are [gmap]s; slices of transaction pointers are
    lists of transaction values ([Match] only reads the transactions). *)

From Stdlib Require Import ZArith Floats String Ascii DecimalString DecimalN.
From stdpp Require Import gmap strings list fin_maps.

Set Warnings "-inexact-float".
Set Default Proof Using "Type".

(** ** The parts of the Go runtime and library the code relies on *)

Module Go.

(** [int]: 64 bits, two's complement. *)
Definition wrap64 (z : Z) : Z := ((z + 2 ^ 63) mod 2 ^ 64 - 2 ^ 63)%Z.
Definition int_add (a b : Z) : Z := wrap64 (a + b).
Definition int_mul (a b : Z) : Z := wrap64 (a * b).

(** [len] of a slice. *)
Definition len {A} (l : list A) : Z := Z.of_nat (length l).

(** [rune] is [int32]; the conversion [rune(x)] of an [int] keeps the low
    32 bits. *)
Definition rune_of_int (z : Z) : Z := ((z + 2 ^ 31) mod 2 ^ 32 - 2 ^ 31)%Z.

(** [int(f)] for a [float64]: the fraction is discarded (truncation
    towards zero). For a value that does not fit, and for NaN and the
    infinities, the language leaves the result to the implementation;
    this is the amd64 one (CVTTSD2SQ yields the "integer indefinite"
    value [-2^63]). *)
Definition int_indefinite : Z := (- 2 ^ 63)%Z.

Definition int_of_float64 (f : float) : Z :=
  match Prim2SF f with
  | S754_zero _ => 0%Z
  | S754_finite s m e =>
      let a := if (0 <=? e)%Z then Z.shiftl (Z.pos m) e
               else Z.shiftr (Z.pos m) (- e) in
      let q := if s then (- a)%Z else a in
      if ((- 2 ^ 63 <=? q) && (q <? 2 ^ 63))%Z then q else int_indefinite
  | S754_infinity _ | S754_nan => int_indefinite
  end.

(** [float64(n)] for an [int]: the nearest binary64, ties to even. *)
Definition float64_of_int (z : Z) : float :=
  SF2Prim (binary_normalize prec emax z 0 false).

(** [math.Abs]. *)
Definition math_Abs (f : float) : float := PrimFloat.abs f.

Definition byte (z : Z) : ascii := ascii_of_N (Z.to_N z).

Definition RuneError : Z := 65533.  (* U+FFFD *)

(** UTF-8 encoding of a valid code point. *)
Definition utf8 (r : Z) : string :=
  if (r <? 128)%Z then String (byte r) EmptyString
  else if (r <? 2048)%Z then
    String (byte (Z.lor 192 (Z.shiftr r 6)))
      (String (byte (Z.lor 128 (Z.land r 63))) EmptyString)
  else if (r <? 65536)%Z then
    String (byte (Z.lor 224 (Z.shiftr r 12)))
      (String (byte (Z.lor 128 (Z.land (Z.shiftr r 6) 63)))
         (String (byte (Z.lor 128 (Z.land r 63))) EmptyString))
  else
    String (byte (Z.lor 240 (Z.shiftr r 18)))
      (String (byte (Z.lor 128 (Z.land (Z.shiftr r 12) 63)))
         (String (byte (Z.lor 128 (Z.land (Z.shiftr r 6) 63)))
            (String (byte (Z.lor 128 (Z.land r 63))) EmptyString))).

(** [string(r)] for a [rune]: the UTF-8 encoding of the code point;
    surrogates and values outside [0, 0x10FFFF] become U+FFFD. *)
Definition string_of_rune (r : Z) : string :=
  if ((r <? 0) || (1114111 <? r) || ((55296 <=? r) && (r <=? 57343)))%Z
  then utf8 RuneError
  else utf8 r.

(** [time.Time], as far as the code observes it: the civil date in the
    value's own location (what [Date()] returns and what [Format] prints)
    and the time elapsed since that day's midnight, in nanoseconds. *)
Record Time := mkTime {
  Year : Z;
  Month : Z;
  Day : Z;
  Clock : Z
}.

Definition Date (t : Time) : Z * Z * Z := (Year t, Month t, Day t).

(** [time.appendInt]: decimal digits, zero-padded to [width], with a
    leading minus sign for a negative number. *)
Definition digits (x : Z) : string :=
  NilZero.string_of_uint (N.to_uint (Z.abs_N x)).

Fixpoint zeros (n : nat) : string :=
  match n with
  | O => EmptyString
  | S k => String "0"%char (zeros k)
  end.

Definition appendInt (x : Z) (width : nat) : string :=
  let d := digits x in
  let padded := (zeros (width - String.length d) ++ d)%string in
  if (x <? 0)%Z then String "-"%char padded else padded.

(** [t.Format("2006-01-02")]. *)
Definition Format_date (t : Time) : string :=
  (appendInt (Year t) 4 ++ "-" ++ appendInt (Month t) 2 ++ "-"
     ++ appendInt (Day t) 2)%string.

(** [filepath.Base] on a Unix path: trailing slashes are dropped, then
    everything up to the last slash; the empty path gives ["."] and a path
    of slashes only gives ["/"]. *)
Fixpoint has_slash (s : string) : bool :=
  match s with
  | EmptyString => false
  | String a r => Ascii.eqb a "/" || has_slash r
  end.

Fixpoint trimTrailingSlashes (s : string) : string :=
  match s with
  | EmptyString => EmptyString
  | String a r =>
      match trimTrailingSlashes r with
      | EmptyString => if Ascii.eqb a "/" then EmptyString else String a EmptyString
      | r' => String a r'
      end
  end.

Fixpoint afterLastSlash (s : string) : string :=
  match s with
  | EmptyString => EmptyString
  | String a r =>
      if has_slash r then afterLastSlash r
      else if Ascii.eqb a "/" then r else s
  end.

Definition Base (path : string) : string :=
  match path with
  | EmptyString => "."
  | _ =>
      match afterLastSlash (trimTrailingSlashes path) with
      | EmptyString => "/"
      | name => name
      end
  end.

(** [strings.Split(s, sep)] for a separator of one byte: the pieces between
    the separators, at least one piece. *)
Fixpoint Split (s : string) (sep : ascii) : list string :=
  match s with
  | EmptyString => [EmptyString]
  | String a r =>
      if Ascii.eqb a sep then EmptyString :: Split r sep
      else match Split r sep with
           | piece :: pieces => String a piece :: pieces
           | [] => [String a EmptyString]
           end
  end.

End Go.

(** ** package domain *)

Module domain.

Definition TransactionType := string.
Definition TransactionTypeDebit : TransactionType := "DEBIT"%string.
Definition TransactionTypeCredit : TransactionType := "CREDIT"%string.

Definition SourceType := string.
Definition SourceTypeSystem : SourceType := "SYSTEM"%string.
Definition SourceTypeBank : SourceType := "BANK"%string.

End domain.

(** ** package transaction *)

Module transaction.
Import domain.

(** The values stored under [map[string]any]: the original fields, kept
    as text, and the row number. *)
Inductive RawValue :=
| RawString (s : string)
| RawInt (n : Z).

Record Transaction := mkTransaction {
  ID : string;
  JobID : string;
  FileID : string;
  SourceType : domain.SourceType;
  TransactionDate : Go.Time;
  Amount : float;
  Type_ : domain.TransactionType;
  Source : string;
  RawData : gmap string RawValue;
  NormalizedData : gmap string RawValue;
  Matched : bool;
  CreatedAt : Go.Time;
  UpdatedAt : Go.Time
}.

(** [NewTransaction]; [now] is the value of [time.Now()]. The ID is left
    at its zero value: callers assign it afterwards. *)
Definition NewTransaction (now : Go.Time) (jobID fileID : string)
    (sourceType : domain.SourceType) (transactionDate : Go.Time)
    (amount : float) (txnType : domain.TransactionType) (source : string)
    : Transaction :=
  {| ID := EmptyString; JobID := jobID; FileID := fileID; SourceType := sourceType;
     TransactionDate := transactionDate; Amount := amount;
     Type_ := txnType; Source := source; RawData := ∅;
     NormalizedData := ∅; Matched := false; CreatedAt := now;
     UpdatedAt := now |}.

Definition set_ID (t : Transaction) (id : string) : Transaction :=
  {| ID := id; JobID := JobID t; FileID := FileID t;
     SourceType := SourceType t; TransactionDate := TransactionDate t;
     Amount := Amount t; Type_ := Type_ t; Source := Source t;
     RawData := RawData t; NormalizedData := NormalizedData t;
     Matched := Matched t; CreatedAt := CreatedAt t;
     UpdatedAt := UpdatedAt t |}.

Definition set_Amount (t : Transaction) (a : float) : Transaction :=
  {| ID := ID t; JobID := JobID t; FileID := FileID t;
     SourceType := SourceType t; TransactionDate := TransactionDate t;
     Amount := a; Type_ := Type_ t; Source := Source t;
     RawData := RawData t; NormalizedData := NormalizedData t;
     Matched := Matched t; CreatedAt := CreatedAt t;
     UpdatedAt := UpdatedAt t |}.

Definition set_UpdatedAt (t : Transaction) (u : Go.Time) : Transaction :=
  {| ID := ID t; JobID := JobID t; FileID := FileID t;
     SourceType := SourceType t; TransactionDate := TransactionDate t;
     Amount := Amount t; Type_ := Type_ t; Source := Source t;
     RawData := RawData t; NormalizedData := NormalizedData t;
     Matched := Matched t; CreatedAt := CreatedAt t;
     UpdatedAt := u |}.

(** [t.Type == domain.TransactionTypeDebit || t.Amount < 0] *)
Definition IsDebit (t : Transaction) : bool :=
  bool_decide (Type_ t = TransactionTypeDebit) || PrimFloat.ltb (Amount t) 0.

Definition AbsAmount (t : Transaction) : float :=
  if PrimFloat.ltb (Amount t) 0 then PrimFloat.opp (Amount t) else Amount t.

(** [NormalizeAmount]; [now] is the value of [time.Now()]. *)
Definition NormalizeAmount (now : Go.Time) (t : Transaction) : Transaction :=
  let t' :=
    if bool_decide (Type_ t = TransactionTypeDebit) && PrimFloat.ltb 0 (Amount t)
    then set_Amount t (PrimFloat.opp (Amount t))
    else if bool_decide (Type_ t = TransactionTypeCredit)
              && PrimFloat.ltb (Amount t) 0
    then set_Amount t (PrimFloat.opp (Amount t))
    else t in
  set_UpdatedAt t' now.

End transaction.

(** ** package matcher *)

Module matcher.
Import transaction.

Record MatchPair := mkMatchPair {
  SystemTransaction : Transaction;
  BankTransaction : Transaction;
  ConfidenceScore : float;
  AmountDiscrepancy : float
}.

Record MatchResult := mkMatchResult {
  Matched : list MatchPair;
  UnmatchedSystem : list Transaction;
  UnmatchedBank : list Transaction;
  AlgorithmUsed : string;
  MatchRate : float;
  TotalSystemTxns : Z;
  TotalBankTxns : Z;
  TotalMatched : Z;
  TotalDiscrepancy : float
}.

Record MatcherConfig := mkMatcherConfig {
  AmountTolerancePct : float
}.

Definition DefaultConfig : MatcherConfig :=
  {| AmountTolerancePct := 0 |}.

(** [CalculateMatchRate] *)
Definition CalculateMatchRate (totalMatched totalSystem totalBank : Z) : float :=
  if ((totalSystem =? 0) && (totalBank =? 0))%Z then 100%float
  else
    let total := Go.int_add totalSystem totalBank in
    let matched := Go.int_mul totalMatched 2 in
    PrimFloat.mul
      (PrimFloat.div (Go.float64_of_int matched) (Go.float64_of_int total))
      100.

(** [NewMatchResult]: three empty slices, the statistics at their zero
    values. *)
Definition NewMatchResult (algorithmName : string) : MatchResult :=
  {| Matched := []; UnmatchedSystem := []; UnmatchedBank := [];
     AlgorithmUsed := algorithmName; MatchRate := 0;
     TotalSystemTxns := 0; TotalBankTxns := 0; TotalMatched := 0;
     TotalDiscrepancy := 0 |}.

(** [result.Matched = append(result.Matched, pair)] and its siblings. *)
Definition append_Matched (mr : MatchResult) (p : MatchPair) : MatchResult :=
  {| Matched := Matched mr ++ [p]; UnmatchedSystem := UnmatchedSystem mr;
     UnmatchedBank := UnmatchedBank mr; AlgorithmUsed := AlgorithmUsed mr;
     MatchRate := MatchRate mr; TotalSystemTxns := TotalSystemTxns mr;
     TotalBankTxns := TotalBankTxns mr; TotalMatched := TotalMatched mr;
     TotalDiscrepancy := TotalDiscrepancy mr |}.

Definition append_UnmatchedSystem (mr : MatchResult) (t : Transaction)
    : MatchResult :=
  {| Matched := Matched mr; UnmatchedSystem := UnmatchedSystem mr ++ [t];
     UnmatchedBank := UnmatchedBank mr; AlgorithmUsed := AlgorithmUsed mr;
     MatchRate := MatchRate mr; TotalSystemTxns := TotalSystemTxns mr;
     TotalBankTxns := TotalBankTxns mr; TotalMatched := TotalMatched mr;
     TotalDiscrepancy := TotalDiscrepancy mr |}.

Definition append_UnmatchedBank (mr : MatchResult) (t : Transaction)
    : MatchResult :=
  {| Matched := Matched mr; UnmatchedSystem := UnmatchedSystem mr;
     UnmatchedBank := UnmatchedBank mr ++ [t];
     AlgorithmUsed := AlgorithmUsed mr;
     MatchRate := MatchRate mr; TotalSystemTxns := TotalSystemTxns mr;
     TotalBankTxns := TotalBankTxns mr; TotalMatched := TotalMatched mr;
     TotalDiscrepancy := TotalDiscrepancy mr |}.

(** [Finalize]: the counts, the match rate, then the total discrepancy
    accumulated over the three partitions in turn. *)
Definition Finalize (mr : MatchResult) : MatchResult :=
  let totalSystem := Go.int_add (Go.len (Matched mr)) (Go.len (UnmatchedSystem mr)) in
  let totalBank := Go.int_add (Go.len (Matched mr)) (Go.len (UnmatchedBank mr)) in
  let totalMatched := Go.len (Matched mr) in
  let d0 := 0%float in
  let d1 := foldl (λ d pair, PrimFloat.add d (AmountDiscrepancy pair)) d0 (Matched mr) in
  let d2 := foldl (λ d txn, PrimFloat.add d (AbsAmount txn)) d1 (UnmatchedSystem mr) in
  let d3 := foldl (λ d txn, PrimFloat.add d (AbsAmount txn)) d2 (UnmatchedBank mr) in
  {| Matched := Matched mr; UnmatchedSystem := UnmatchedSystem mr;
     UnmatchedBank := UnmatchedBank mr; AlgorithmUsed := AlgorithmUsed mr;
     MatchRate := CalculateMatchRate totalMatched totalSystem totalBank;
     TotalSystemTxns := totalSystem; TotalBankTxns := totalBank;
     TotalMatched := totalMatched; TotalDiscrepancy := d3 |}.

(** *** exact_matcher.go *)

Record ExactMatcher := mkExactMatcher {
  config : MatcherConfig
}.

Definition NewExactMatcher (cfg : MatcherConfig) : ExactMatcher :=
  {| config := cfg |}.

Definition SetConfig (em : ExactMatcher) (cfg : MatcherConfig) : ExactMatcher :=
  {| config := cfg |}.

Definition Name (em : ExactMatcher) : string := "exact".

(** [isSameDay] *)
Definition isSameDay (t1 t2 : Go.Time) : bool :=
  let '(y1, m1, d1) := Go.Date t1 in
  let '(y2, m2, d2) := Go.Date t2 in
  ((y1 =? y2) && (m1 =? m2) && (d1 =? d2))%Z.

Definition epsilon : float := 0.001.

(** [amountsEqual] *)
Definition amountsEqual (a1 a2 : float) : bool :=
  PrimFloat.ltb (Go.math_Abs (PrimFloat.sub a1 a2)) epsilon.

(** [formatAmount]: [string(rune(int(amount * 100)))]. *)
Definition formatAmount (amount : float) : string :=
  Go.string_of_rune (Go.rune_of_int (Go.int_of_float64 (PrimFloat.mul amount 100))).

(** [generateKey] *)
Definition generateKey (em : ExactMatcher) (txn : Transaction) : string :=
  let dateStr := Go.Format_date (TransactionDate txn) in
  let typeStr := if IsDebit txn then "debit"%string else "credit"%string in
  let amount := AbsAmount txn in
  (dateStr ++ "_" ++ typeStr ++ "_" ++ formatAmount amount)%string.

(** [isExactMatch] *)
Definition isExactMatch (em : ExactMatcher) (sysTxn bankTxn : Transaction) : bool :=
  if negb (isSameDay (TransactionDate sysTxn) (TransactionDate bankTxn)) then false
  else if negb (Bool.eqb (IsDebit sysTxn) (IsDebit bankTxn)) then false
  else if negb (amountsEqual (AbsAmount sysTxn) (AbsAmount bankTxn)) then false
  else true.

(** [calculateDiscrepancy] *)
Definition calculateDiscrepancy (em : ExactMatcher) (sysTxn bankTxn : Transaction)
    : float :=
  Go.math_Abs (PrimFloat.sub (AbsAmount sysTxn) (AbsAmount bankTxn)).

(** The first loop of [Match]: the buckets, each in input order. A missing
    key reads as the nil slice. *)
Definition addToBucket (em : ExactMatcher)
    (bankTxnMap : gmap string (list Transaction)) (bankTxn : Transaction)
    : gmap string (list Transaction) :=
  let key := generateKey em bankTxn in
  <[key := default [] (bankTxnMap !! key) ++ [bankTxn]]> bankTxnMap.

Definition buildBankTxnMap (em : ExactMatcher) (bankTxns : list Transaction)
    : gmap string (list Transaction) :=
  foldl (addToBucket em) ∅ bankTxns.

(** [matchedBankTxns[id]]: a missing key reads as [false]. *)
Definition isMatched (matchedBankTxns : gmap string bool) (id : string) : bool :=
  default false (matchedBankTxns !! id).

(** The state the second loop threads through its iterations. *)
Record MatchState := mkMatchState {
  result : MatchResult;
  matchedBankTxns : gmap string bool
}.

(** The candidates whose ID is not marked yet, in bucket order. *)
Definition availableCandidates (matchedBankTxns : gmap string bool)
    (candidates : list Transaction) : list Transaction :=
  foldl (λ avail bankTxn,
           if negb (isMatched matchedBankTxns (ID bankTxn))
           then avail ++ [bankTxn] else avail)
        [] candidates.

(** The inner loop over the available candidates: the first one that
    passes [isExactMatch] is paired and marked, and the loop breaks. The
    boolean is the [matched] flag. *)
Fixpoint tryCandidates (em : ExactMatcher) (sysTxn : Transaction)
    (avail : list Transaction) (st : MatchState) : MatchState * bool :=
  match avail with
  | [] => (st, false)
  | bankTxn :: rest =>
      if isExactMatch em sysTxn bankTxn then
        let pair := {| SystemTransaction := sysTxn;
                       BankTransaction := bankTxn;
                       ConfidenceScore := 100;
                       AmountDiscrepancy := calculateDiscrepancy em sysTxn bankTxn |} in
        ({| result := append_Matched (result st) pair;
            matchedBankTxns := <[ID bankTxn := true]> (matchedBankTxns st) |},
         true)
      else tryCandidates em sysTxn rest st
  end.

Definition markUnmatchedSystem (st : MatchState) (sysTxn : Transaction)
    : MatchState :=
  {| result := append_UnmatchedSystem (result st) sysTxn;
     matchedBankTxns := matchedBankTxns st |}.

(** One iteration of the loop over the system transactions. *)
Definition matchSystemTxn (em : ExactMatcher)
    (bankTxnMap : gmap string (list Transaction))
    (st : MatchState) (sysTxn : Transaction) : MatchState :=
  let key := generateKey em sysTxn in
  let '(candidates, exists_) :=
    match bankTxnMap !! key with
    | Some c => (c, true)
    | None => ([], false)
    end in
  if negb exists_ || (Go.len candidates =? 0)%Z then
    markUnmatchedSystem st sysTxn
  else
    let avail := availableCandidates (matchedBankTxns st) candidates in
    if (1 <? Go.len avail)%Z then markUnmatchedSystem st sysTxn
    else
      let '(st', matched) := tryCandidates em sysTxn avail st in
      if negb matched then markUnmatchedSystem st' sysTxn else st'.

(** The last loop: every bank transaction whose ID is not marked. *)
Definition collectUnmatchedBank (matchedBankTxns : gmap string bool)
    (mr : MatchResult) (bankTxns : list Transaction) : MatchResult :=
  foldl (λ r bankTxn,
           if negb (isMatched matchedBankTxns (ID bankTxn))
           then append_UnmatchedBank r bankTxn else r)
        mr bankTxns.

(** The state when the loop over the system transactions is done. *)
Definition runSystemLoop (em : ExactMatcher) (systemTxns bankTxns : list Transaction)
    : MatchState :=
  foldl (matchSystemTxn em (buildBankTxnMap em bankTxns))
        {| result := NewMatchResult (Name em); matchedBankTxns := ∅ |}
        systemTxns.

(** [Match]. The second component is the error, always [nil]. *)
Definition Match (em : ExactMatcher) (systemTxns bankTxns : list Transaction)
    : MatchResult * option string :=
  let st := runSystemLoop em systemTxns bankTxns in
  let result := collectUnmatchedBank (matchedBankTxns st) (result st) bankTxns in
  (Finalize result, None).

End matcher.

(** ** package csv: from rows to transactions *)

Module csv.
Import domain transaction.

Module SystemTransactionRow.
Record t := mk {
  TrxID : string;
  Amount : string;
  Source : string;
  Type_ : string;
  TransactionTime : string;
  RowNumber : Z
}.
End SystemTransactionRow.

Module BankStatementRow.
Record t := mk {
  UniqueIdentifier : string;
  Amount : string;
  Date : string;
  RowNumber : Z
}.
End BankStatementRow.

(** The errors the two parsers return, each with the offending text. *)
Inductive ParseError :=
| InvalidAmount (text : string)
| InvalidType (text : string)
| InvalidTime (text : string)
| InvalidDate (text : string).

Inductive parsed :=
| Ok (txn : Transaction)
| Err (e : ParseError).

Definition set_RawData (t : Transaction) (raw : gmap string RawValue)
    : Transaction :=
  {| ID := ID t; JobID := JobID t; FileID := FileID t;
     SourceType := SourceType t; TransactionDate := TransactionDate t;
     transaction.Amount := transaction.Amount t;
     transaction.Type_ := transaction.Type_ t;
     transaction.Source := transaction.Source t;
     RawData := raw; NormalizedData := NormalizedData t;
     Matched := Matched t; CreatedAt := CreatedAt t;
     UpdatedAt := UpdatedAt t |}.

Definition RFC3339 : string := "2006-01-02T15:04:05Z07:00".

(** The layouts [parseDate] tries, in this order. *)
Definition formats : list string :=
  ["2006-01-02"; "2006/01/02"; "02-01-2006"; "02/01/2006";
   "2006-01-02T15:04:05Z"; RFC3339]%string.

Section parsers.

(** The library calls of the parsers: [strconv.ParseFloat(s, 64)],
    [time.Parse(layout, s)] (each [None] for an error) and
    [strings.ToUpper]; [now] and [now'] are the two readings of the clock,
    in [NewTransaction] and in [NormalizeAmount]. *)
Variable ParseFloat : string → option float.
Variable time_Parse : string → string → option Go.Time.
Variable ToUpper : string → string.
Variables now now' : Go.Time.

(** [parseDate]: the first layout that parses the text wins. *)
Fixpoint parseDate_from (layouts : list string) (dateStr : string)
    : option Go.Time :=
  match layouts with
  | [] => None
  | format :: rest =>
      match time_Parse format dateStr with
      | Some t => Some t
      | None => parseDate_from rest dateStr
      end
  end.

Definition parseDate (dateStr : string) : option Go.Time :=
  parseDate_from formats dateStr.

(** [ParseSystemTransaction] *)
Definition ParseSystemTransaction (row : SystemTransactionRow.t)
    (jobID fileID : string) : parsed :=
  match ParseFloat (SystemTransactionRow.Amount row) with
  | None => Err (InvalidAmount (SystemTransactionRow.Amount row))
  | Some amount =>
      let checked :=
        if bool_decide (ToUpper (SystemTransactionRow.Type_ row) = "DEBIT"%string)
        then Some TransactionTypeDebit
        else if negb (bool_decide
                        (ToUpper (SystemTransactionRow.Type_ row) = "CREDIT"%string))
        then None
        else Some TransactionTypeCredit in
      match checked with
      | None => Err (InvalidType (SystemTransactionRow.Type_ row))
      | Some txnType =>
          match time_Parse RFC3339 (SystemTransactionRow.TransactionTime row) with
          | None => Err (InvalidTime (SystemTransactionRow.TransactionTime row))
          | Some txnTime =>
              let txn := NewTransaction now jobID fileID SourceTypeSystem txnTime
                           amount txnType
                           (ToUpper (SystemTransactionRow.Source row)) in
              let txn := set_ID txn (SystemTransactionRow.TrxID row) in
              let txn := set_RawData txn
                (<["trxID"%string := RawString (SystemTransactionRow.TrxID row)]>
                 (<["amount"%string := RawString (SystemTransactionRow.Amount row)]>
                  (<["source"%string := RawString (SystemTransactionRow.Source row)]>
                   (<["type"%string := RawString (SystemTransactionRow.Type_ row)]>
                    (<["transactionTime"%string :=
                         RawString (SystemTransactionRow.TransactionTime row)]>
                     (<["rowNumber"%string :=
                          RawInt (SystemTransactionRow.RowNumber row)]> ∅)))))) in
              Ok (NormalizeAmount now' txn)
          end
      end
  end.

(** [ParseBankTransaction] *)
Definition ParseBankTransaction (row : BankStatementRow.t)
    (jobID fileID bankSource : string) : parsed :=
  match ParseFloat (BankStatementRow.Amount row) with
  | None => Err (InvalidAmount (BankStatementRow.Amount row))
  | Some amount =>
      let txnType :=
        if PrimFloat.ltb amount 0 then TransactionTypeDebit
        else TransactionTypeCredit in
      match parseDate (BankStatementRow.Date row) with
      | None => Err (InvalidDate (BankStatementRow.Date row))
      | Some txnDate =>
          let txn := NewTransaction now jobID fileID SourceTypeBank txnDate
                       amount txnType (ToUpper bankSource) in
          let txn := set_ID txn (BankStatementRow.UniqueIdentifier row) in
          let txn := set_RawData txn
            (<["unique_identifier"%string :=
                 RawString (BankStatementRow.UniqueIdentifier row)]>
             (<["amount"%string := RawString (BankStatementRow.Amount row)]>
              (<["date"%string := RawString (BankStatementRow.Date row)]>
               (<["bankSource"%string := RawString bankSource]>
                (<["rowNumber"%string :=
                     RawInt (BankStatementRow.RowNumber row)]> ∅))))) in
          Ok (NormalizeAmount now' txn)
      end
  end.

End parsers.

(** The errors of [ExtractBankSourceFromFilename], with the file name. *)
Inductive FilenameError :=
| InvalidFilenameFormat (filename : string)
| NoBankName (filename : string).

(** [ExtractBankSourceFromFilename]; [ToUpper] is [strings.ToUpper]. *)
Definition ExtractBankSourceFromFilename (ToUpper : string → string)
    (filePath : string) : string + FilenameError :=
  let filename := Go.Base filePath in
  let parts := Go.Split filename "_" in
  if (Go.len parts <? 2)%Z then inr (InvalidFilenameFormat filename)
  else
    let bankName := ToUpper (default EmptyString (parts !! 0%nat)) in
    if bool_decide (bankName = EmptyString) then inr (NoBankName filename)
    else inl bankName.

End csv.

(** ** cmd/reconcile: what the report reads off a result *)

Module report.
Import domain transaction matcher.

(** The scan of [printReconciliationReport] for a pair worth listing: it
    stops at the first pair whose discrepancy exceeds 0.001. *)
Fixpoint anyDiscrepancy (pairs : list MatchPair) : bool :=
  match pairs with
  | [] => false
  | p :: rest =>
      if PrimFloat.ltb 0.001 (AmountDiscrepancy p) then true
      else anyDiscrepancy rest
  end.

Definition hasDiscrepancies (result : MatchResult) : bool :=
  if (0 <? Go.len (Matched result))%Z then anyDiscrepancy (Matched result)
  else false.

(** The pairs the report lists under "MATCHED TRANSACTIONS WITH
    DISCREPANCIES". *)
Definition listedDiscrepancies (result : MatchResult) : list MatchPair :=
  if hasDiscrepancies result then
    foldl (λ out p, if PrimFloat.ltb 0.001 (AmountDiscrepancy p)
                    then out ++ [p] else out) [] (Matched result)
  else [].

(** The type column of an unmatched transaction. *)
Definition typeStr (txn : Transaction) : string :=
  if bool_decide (Type_ txn = TransactionTypeDebit) then "DEBIT" else "CREDIT".

(** The counts of the summary. *)
Definition totalProcessed (result : MatchResult) : Z :=
  Go.int_add (TotalSystemTxns result) (TotalBankTxns result).

Definition totalUnmatched (result : MatchResult) : Z :=
  Go.int_add (Go.len (UnmatchedSystem result)) (Go.len (UnmatchedBank result)).

End report.

(** ** Auxiliary notions and the fixtures of the test suite *)

Import domain transaction matcher.

(** A number other than zero: one of the strict comparisons with zero
    holds (none does for [0], [-0] and NaN). *)
Definition nonzero_number (a : float) : bool :=
  PrimFloat.ltb a 0 || PrimFloat.ltb 0 a.

Definition noon : Go.Time := Go.mkTime 2024 3 15 43200000000000.
Definition midnight : Go.Time := Go.mkTime 2024 3 15 0.
Definition next_day : Go.Time := Go.mkTime 2024 3 16 0.

(** The helper of the matcher's tests: a transaction with its ID set and
    its amount normalized. *)
Definition createTransaction (id : string) (sourceType : domain.SourceType)
    (source : string) (amount : float) (txnType : domain.TransactionType)
    (date : Go.Time) : Transaction :=
  NormalizeAmount noon
    (set_ID (NewTransaction noon "test-job" "test-file" sourceType date
               amount txnType source) id).

Definition createSystemTransaction (id source : string) (amount : float)
    (txnType : domain.TransactionType) (date : Go.Time) : Transaction :=
  createTransaction id SourceTypeSystem source amount txnType date.

Definition createBankTransaction (id source : string) (amount : float)
    (txnType : domain.TransactionType) (date : Go.Time) : Transaction :=
  createTransaction id SourceTypeBank source amount txnType date.

(** The bucket of a key: the bank transactions with that key, in input
    order. *)
Definition bucket (em : ExactMatcher) (bankTxns : list Transaction)
    (key : string) : list Transaction :=
  filter (λ b, generateKey em b = key) bankTxns.

(** A bank transaction is eligible while its ID is not marked. *)
Definition unmarked (marks : gmap string bool) (b : Transaction) : Prop :=
  isMatched marks (ID b) = false.

#[global] Instance unmarked_dec marks b : Decision (unmarked marks b).
Proof. unfold unmarked. apply _. Defined.

(** The pair [Match] emits for a system and a bank transaction. *)
Definition exactPair (em : ExactMatcher) (sysTxn bankTxn : Transaction)
    : MatchPair :=
  {| SystemTransaction := sysTxn; BankTransaction := bankTxn;
     ConfidenceScore := 100;
     AmountDiscrepancy := calculateDiscrepancy em sysTxn bankTxn |}.

(** The state after a pair has been emitted and its bank side marked. *)
Definition markMatched (em : ExactMatcher) (st : MatchState)
    (sysTxn bankTxn : Transaction) : MatchState :=
  {| result := append_Matched (result st) (exactPair em sysTxn bankTxn);
     matchedBankTxns := <[ID bankTxn := true]> (matchedBankTxns st) |}.

(** The IDs of the bank sides of a list of pairs. *)
Definition bankIDs (pairs : list MatchPair) : list string :=
  (λ p, ID (BankTransaction p)) <$> pairs.

(** Two amounts are the same number: identical, or equal as binary64
    values (which also identifies [0] and [-0]). *)
Definition sameAmount (a b : float) : Prop :=
  a = b ∨ PrimFloat.eqb a b = true.

(** The grouping key the specification describes: calendar date, debit
    polarity and absolute amount. *)
Definition sameGrouping (t1 t2 : Transaction) : Prop :=
  Go.Date (TransactionDate t1) = Go.Date (TransactionDate t2)
  ∧ IsDebit t1 = IsDebit t2
  ∧ sameAmount (AbsAmount t1) (AbsAmount t2).

(** The matcher the command line builds. *)
Definition exact : ExactMatcher := NewExactMatcher DefaultConfig.

(** Two bank statements that both use the identifier TX001, for different
    movements, and a system transaction that matches the first. *)
Definition shared_ID_system : list Transaction :=
  [createSystemTransaction "SYS001" "BCA" 150.50 TransactionTypeDebit midnight].

Definition shared_ID_bank : list Transaction :=
  [createBankTransaction "TX001" "BCA" (-150.50) TransactionTypeDebit midnight;
   createBankTransaction "TX001" "MANDIRI" (-99) TransactionTypeDebit next_day].

(** Two credits of the same day whose amounts agree in whole cents only. *)
Definition subcent_system : list Transaction :=
  [createSystemTransaction "SYS001" "BCA" 150.5004 TransactionTypeCredit midnight].

Definition subcent_bank : list Transaction :=
  [createBankTransaction "BANK001" "BCA" 150.5001 TransactionTypeCredit midnight].

(** One bank debit of 150.50 and two system debits of that amount on the
    same day. *)
Definition rival_first : Transaction :=
  createSystemTransaction "SYS001" "BCA" 150.50 TransactionTypeDebit midnight.

Definition rival_second : Transaction :=
  createSystemTransaction "SYS002" "MANDIRI" 150.50 TransactionTypeDebit noon.

Definition rival_bank : list Transaction :=
  [createBankTransaction "BANK001" "BCA" (-150.50) TransactionTypeDebit midnight].

(** The ambiguous case of the test suite: one system debit and two bank
    debits of the same day and amount, from different banks. *)
Definition ambiguous_system : Transaction :=
  createSystemTransaction "SYS001" "BCA" 150.50 TransactionTypeDebit midnight.

Definition ambiguous_bank : list Transaction :=
  [createBankTransaction "BANK001" "BCA" (-150.50) TransactionTypeDebit midnight;
   createBankTransaction "BANK002" "MANDIRI" (-150.50) TransactionTypeDebit midnight].

(** A bank transaction a run over [done_] is bound to claim: it is alone
    in its bucket and some system transaction of [done_] has its key and
    passes [isExactMatch] with it. *)
Definition claimable (em : ExactMatcher) (bankTxns done_ : list Transaction)
    (b : Transaction) : Prop :=
  b ∈ bankTxns
  ∧ bucket em bankTxns (generateKey em b) = [b]
  ∧ ∃ s, s ∈ done_ ∧ generateKey em s = generateKey em b
         ∧ isExactMatch em s b = true.

(** The statistics case of the test suite: two system transactions, one
    bank transaction that matches the first. *)
Definition statistics_system : list Transaction :=
  [createSystemTransaction "SYS001" "BCA" 150.50 TransactionTypeDebit midnight;
   createSystemTransaction "SYS002" "BCA" 1000 TransactionTypeCredit midnight].

Definition statistics_bank : list Transaction :=
  [createBankTransaction "BANK001" "BCA" (-150.50) TransactionTypeDebit midnight].

(** The system credit of the statistics case, which no bank transaction
    answers. *)
Definition statistics_credit : Transaction :=
  createSystemTransaction "SYS002" "BCA" 1000 TransactionTypeCredit midnight.

(** The partitions of that case before [Finalize] runs. *)
Definition statistics_partitions : MatchResult :=
  let st := runSystemLoop exact statistics_system statistics_bank in
  collectUnmatchedBank (matchedBankTxns st) (result st) statistics_bank.



(** Whether a character occurs in a string. *)
Fixpoint has_char (c : ascii) (s : string) : bool :=
  match s with
  | EmptyString => false
  | String a r => Ascii.eqb a c || has_char c r
  end.

(** The number a string of decimal digits denotes, leading zeros allowed. *)
Definition decodeDigits (s : string) : option N :=
  N.of_uint <$> NilEmpty.uint_of_string s.



(** The invariant of the loop over the system transactions. The bank
    transactions are not assumed to carry distinct IDs. *)
Record loop_invariant (em : ExactMatcher)
    (bankTxns done_ : list Transaction) (st : MatchState) : Prop := {
  inv_system :
    (SystemTransaction <$> Matched (result st)) ++ UnmatchedSystem (result st)
    ≡ₚ done_;
  inv_bank_empty : UnmatchedBank (result st) = [];
  inv_marks : ∀ id, isMatched (matchedBankTxns st) id = true
                    ↔ id ∈ bankIDs (Matched (result st));
  inv_nodup : NoDup (bankIDs (Matched (result st)));
  inv_pairs :
    Forall (λ p, BankTransaction p ∈ bankTxns
                 ∧ generateKey em (BankTransaction p)
                   = generateKey em (SystemTransaction p)
                 ∧ isExactMatch em (SystemTransaction p) (BankTransaction p) = true
                 ∧ p = exactPair em (SystemTransaction p) (BankTransaction p))
           (Matched (result st))
}.

(** Stand-ins for the library calls of the parsers, defined on the sample
    rows of the README and failing elsewhere. *)
Definition sampleParseFloat (text : string) : option float :=
  if bool_decide (text = "150.50"%string) then Some 150.50%float
  else if bool_decide (text = "-150.50"%string) then Some (-150.50)%float
  else None.

Definition sampleParse (layout text : string) : option Go.Time :=
  if bool_decide (layout = csv.RFC3339 ∧ text = "2024-03-15T10:30:00Z"%string)
  then Some (Go.mkTime 2024 3 15 37800000000000)
  else if bool_decide (layout = "2006-01-02"%string ∧ text = "2024-03-15"%string)
  then Some midnight
  else None.

Definition sampleToUpper (text : string) : string :=
  if bool_decide (text = "debit"%string) then "DEBIT"%string
  else if bool_decide (text = "bca"%string) then "BCA"%string
  else text.

Definition sampleSystemRow : csv.SystemTransactionRow.t :=
  csv.SystemTransactionRow.mk "TRX001" "150.50" "BCA" "debit"
    "2024-03-15T10:30:00Z" 1.

Definition sampleBankRow : csv.BankStatementRow.t :=
  csv.BankStatementRow.mk "BCA_TX_001" "-150.50" "2024-03-15" 1.

(** The code points [string(rune)] encodes as themselves: 0 to 0x10FFFF
    without the surrogates. *)
Definition validRune (r : Z) : Prop :=
  (0 ≤ r ≤ 1114111)%Z ∧ ¬ (55296 ≤ r ≤ 57343)%Z.

(** The rune [formatAmount] turns into the last component of the key. *)
Definition keyRune (amount : float) : Z :=
  Go.rune_of_int (Go.int_of_float64 (PrimFloat.mul amount 100)).


(** Three bank transactions from two statements that both use the
    identifier TX001: two debits of 150.50 on the same day, and a debit of
    99.00 on the next day; and two system debits, one for each amount. *)
Definition reused_ID_first : Transaction :=
  createBankTransaction "TX001" "BCA" (-150.50) TransactionTypeDebit midnight.

Definition reused_ID_rival : Transaction :=
  createBankTransaction "TX002" "BCA" (-150.50) TransactionTypeDebit midnight.

Definition reused_ID_second : Transaction :=
  createBankTransaction "TX001" "MANDIRI" (-99) TransactionTypeDebit next_day.

Definition reused_ID_bank : list Transaction :=
  [reused_ID_first; reused_ID_rival; reused_ID_second].

Definition reused_ID_early : Transaction :=
  createSystemTransaction "SYS001" "BCA" 150.50 TransactionTypeDebit midnight.

Definition reused_ID_late : Transaction :=
  createSystemTransaction "SYS002" "MANDIRI" 99 TransactionTypeDebit next_day.



(** * Properties *)

(** ** binary64 comparisons against zero *)

Section float_facts.

Lemma Prim2SF_zero : Prim2SF 0 = S754_zero false.
Proof. reflexivity. Qed.

(** What the two strict comparisons with zero say about the sign. *)
Lemma ltb_zero_r (a : float) :
  PrimFloat.ltb a 0 =
    match Prim2SF a with
    | S754_infinity s | S754_finite s _ _ => s
    | _ => false
    end.
Proof.
  rewrite ltb_spec, Prim2SF_zero.
  by destruct (Prim2SF a) as [s|s| |s m e]; try destruct s.
Qed.

Lemma ltb_zero_l (a : float) :
  PrimFloat.ltb 0 a =
    match Prim2SF a with
    | S754_infinity s | S754_finite s _ _ => negb s
    | _ => false
    end.
Proof.
  rewrite ltb_spec, Prim2SF_zero.
  by destruct (Prim2SF a) as [s|s| |s m e]; try destruct s.
Qed.

Lemma ltb_zero_r_opp (a : float) :
  PrimFloat.ltb (PrimFloat.opp a) 0 = PrimFloat.ltb 0 a.
Proof.
  rewrite ltb_zero_r, ltb_zero_l, opp_spec.
  by destruct (Prim2SF a).
Qed.

Lemma ltb_zero_l_opp (a : float) :
  PrimFloat.ltb 0 (PrimFloat.opp a) = PrimFloat.ltb a 0.
Proof.
  rewrite ltb_zero_r, ltb_zero_l, opp_spec.
  destruct (Prim2SF a); simpl; by rewrite ?negb_involutive.
Qed.

Lemma ltb_zero_exclusive (a : float) :
  PrimFloat.ltb 0 a = true → PrimFloat.ltb a 0 = false.
Proof.
  rewrite ltb_zero_r, ltb_zero_l.
  by destruct (Prim2SF a) as [s|s| |s m e]; try destruct s.
Qed.

End float_facts.

(** ** The transaction model *)

Lemma NormalizeAmount_Type (now : Go.Time) (t : Transaction) :
  Type_ (NormalizeAmount now t) = Type_ t.
Proof. unfold NormalizeAmount. by repeat case_match. Qed.

Lemma NormalizeAmount_Amount (now : Go.Time) (t : Transaction) :
  Amount (NormalizeAmount now t) =
    if bool_decide (Type_ t = TransactionTypeDebit) && PrimFloat.ltb 0 (Amount t)
    then PrimFloat.opp (Amount t)
    else if bool_decide (Type_ t = TransactionTypeCredit) && PrimFloat.ltb (Amount t) 0
    then PrimFloat.opp (Amount t)
    else Amount t.
Proof. unfold NormalizeAmount. by repeat case_match. Qed.

Example NormalizeAmount_debit_positive :
  Amount (createSystemTransaction "SYS001" "BCA" 150.50 TransactionTypeDebit midnight)
  = (-150.50)%float.
Proof. reflexivity. Qed.

Example NormalizeAmount_credit_negative :
  Amount (createBankTransaction "BANK002" "BCA" (-1000) TransactionTypeCredit midnight)
  = 1000%float.
Proof. reflexivity. Qed.

(** C5, as stated, fails on a zero amount: a DEBIT of 0 stays 0 under
    [NormalizeAmount], and 0 is not negative. *)
Lemma NormalizeAmount_debit_zero_not_negative :
  let t := NewTransaction noon "job" "file" SourceTypeSystem midnight 0
             TransactionTypeDebit "BCA" in
  Type_ (NormalizeAmount noon t) = TransactionTypeDebit
  ∧ Amount (NormalizeAmount noon t) = 0%float
  ∧ PrimFloat.ltb (Amount (NormalizeAmount noon t)) 0 = false.
Proof. by vm_compute. Qed.

(** C5 (amended): after [NormalizeAmount] the amount of a DEBIT is never
    positive and the amount of a CREDIT is never negative, whatever sign the
    transaction carried before; when the amount was a number other than
    zero, a DEBIT ends strictly negative and a CREDIT strictly positive. *)
Theorem NormalizeAmount_sign (now : Go.Time) (t : Transaction) :
  let a' := Amount (NormalizeAmount now t) in
  (Type_ t = TransactionTypeDebit →
     PrimFloat.ltb 0 a' = false
     ∧ (nonzero_number (Amount t) = true → PrimFloat.ltb a' 0 = true))
  ∧ (Type_ t = TransactionTypeCredit →
     PrimFloat.ltb a' 0 = false
     ∧ (nonzero_number (Amount t) = true → PrimFloat.ltb 0 a' = true)).
Proof.
  cbv zeta. rewrite NormalizeAmount_Amount. unfold nonzero_number.
  split; intros Hty; rewrite Hty; simpl.
  - destruct (PrimFloat.ltb 0 (Amount t)) eqn:Hpos.
    + rewrite ltb_zero_l_opp, ltb_zero_r_opp, Hpos.
      by split; [apply ltb_zero_exclusive|].
    + rewrite Hpos. split; [done|]. by rewrite orb_false_r.
  - destruct (PrimFloat.ltb (Amount t) 0) eqn:Hneg.
    + rewrite ltb_zero_l_opp, ltb_zero_r_opp, Hneg. split; [|done].
      destruct (PrimFloat.ltb 0 (Amount t)) eqn:Hpos; [|done].
      apply ltb_zero_exclusive in Hpos. congruence.
    + by rewrite Hneg.
Qed.

(** C6: [NormalizeAmount] is idempotent on the amount: a second application
    leaves the amount of an already normalized transaction unchanged. *)
Theorem NormalizeAmount_idempotent (now now' : Go.Time) (t : Transaction) :
  Amount (NormalizeAmount now' (NormalizeAmount now t))
  = Amount (NormalizeAmount now t).
Proof.
  rewrite (NormalizeAmount_Amount now'), NormalizeAmount_Type.
  rewrite (NormalizeAmount_Amount now).
  destruct (bool_decide (Type_ t = TransactionTypeDebit)) eqn:Hd.
  - apply bool_decide_eq_true in Hd.
    assert (bool_decide (Type_ t = TransactionTypeCredit) = false) as ->.
    { apply bool_decide_eq_false. by rewrite Hd. }
    simpl. destruct (PrimFloat.ltb 0 (Amount t)) eqn:Hpos.
    + by rewrite ltb_zero_l_opp, (ltb_zero_exclusive _ Hpos).
    + by rewrite Hpos.
  - simpl. destruct (bool_decide (Type_ t = TransactionTypeCredit)); [|done].
    simpl. destruct (PrimFloat.ltb (Amount t) 0) eqn:Hneg.
    + rewrite ltb_zero_r_opp.
      destruct (PrimFloat.ltb 0 (Amount t)) eqn:Hpos; [|done].
      apply ltb_zero_exclusive in Hpos. congruence.
    + by rewrite Hneg.
Qed.

(** ** The loops of [Match], one at a time *)

Section loops.
Context (em : ExactMatcher).

Lemma foldl_ext {A B} (f g : A → B → A) (l : list B) (a : A) :
  (∀ a b, f a b = g a b) → foldl f a l = foldl g a l.
Proof.
  intros Hfg. revert a. induction l as [|x l IH]; intros a; simpl; [done|].
  by rewrite Hfg, IH.
Qed.

(** The candidates kept are the unmarked ones, in order. *)
Lemma availableCandidates_filter (marks : gmap string bool)
    (candidates : list Transaction) :
  availableCandidates marks candidates = filter (unmarked marks) candidates.
Proof.
  unfold availableCandidates.
  enough (∀ acc, foldl (λ avail bankTxn,
             if negb (isMatched marks (ID bankTxn))
             then avail ++ [bankTxn] else avail) acc candidates
           = acc ++ filter (unmarked marks) candidates) as H by apply (H []).
  induction candidates as [|b c IH]; intros acc; simpl.
  - by rewrite app_nil_r.
  - rewrite IH, filter_cons.
    destruct (decide (unmarked marks b)) as [Hu|Hu]; unfold unmarked in Hu.
    + rewrite Hu. simpl. by rewrite <- app_assoc.
    + apply not_false_is_true in Hu. by rewrite Hu.
Qed.

(** The last loop leaves the pairs and the unmatched system transactions
    alone and appends the unmarked bank transactions. *)
Lemma collectUnmatchedBank_Matched marks mr bankTxns :
  Matched (collectUnmatchedBank marks mr bankTxns) = Matched mr.
Proof.
  unfold collectUnmatchedBank. revert mr.
  induction bankTxns as [|b l IH]; intros mr; simpl; [done|].
  rewrite IH. by destruct (negb _).
Qed.

Lemma collectUnmatchedBank_UnmatchedSystem marks mr bankTxns :
  UnmatchedSystem (collectUnmatchedBank marks mr bankTxns) = UnmatchedSystem mr.
Proof.
  unfold collectUnmatchedBank. revert mr.
  induction bankTxns as [|b l IH]; intros mr; simpl; [done|].
  rewrite IH. by destruct (negb _).
Qed.

Lemma collectUnmatchedBank_UnmatchedBank marks mr bankTxns :
  UnmatchedBank (collectUnmatchedBank marks mr bankTxns)
  = UnmatchedBank mr ++ filter (unmarked marks) bankTxns.
Proof.
  unfold collectUnmatchedBank. revert mr.
  induction bankTxns as [|b l IH]; intros mr; simpl.
  - by rewrite app_nil_r.
  - rewrite IH, filter_cons.
    destruct (decide (unmarked marks b)) as [Hu|Hu]; unfold unmarked in Hu.
    + rewrite Hu. simpl. by rewrite <- app_assoc.
    + apply not_false_is_true in Hu. by rewrite Hu.
Qed.

(** The first loop: under each key sits its bucket; a key no bank
    transaction has is absent. *)
Lemma buildBankTxnMap_lookup (bankTxns : list Transaction) (key : string) :
  buildBankTxnMap em bankTxns !! key =
    match bucket em bankTxns key with
    | [] => None
    | c => Some c
    end.
Proof.
  unfold buildBankTxnMap, bucket.
  induction bankTxns as [|b l IH] using rev_ind; [done|].
  rewrite foldl_snoc, filter_app, filter_cons, filter_nil.
  unfold addToBucket at 1. rewrite lookup_insert.
  destruct (decide (generateKey em b = key)) as [->|Hne].
  - rewrite IH. by destruct (filter _ l).
  - by rewrite app_nil_r.
Qed.

(** One iteration of the loop over the system transactions, read off the
    bucket of the transaction's key: with exactly one unmarked candidate
    that passes [isExactMatch] the pair is emitted and the candidate marked;
    in every other case the system transaction is unmatched and nothing
    else changes. *)
Lemma matchSystemTxn_bucket (bankTxns : list Transaction) (st : MatchState)
    (sysTxn : Transaction) :
  matchSystemTxn em (buildBankTxnMap em bankTxns) st sysTxn =
    match filter (unmarked (matchedBankTxns st))
            (bucket em bankTxns (generateKey em sysTxn)) with
    | [b] => if isExactMatch em sysTxn b then markMatched em st sysTxn b
             else markUnmatchedSystem st sysTxn
    | _ => markUnmatchedSystem st sysTxn
    end.
Proof.
  unfold matchSystemTxn. rewrite buildBankTxnMap_lookup.
  remember (bucket em bankTxns (generateKey em sysTxn)) as cands eqn:Hc.
  destruct cands as [|c0 c]; [done|].
  rewrite availableCandidates_filter.
  replace (negb true || (Go.len (c0 :: c) =? 0)%Z) with false
    by (unfold Go.len; simpl length; symmetry; apply orb_false_iff; split;
        [done | apply Z.eqb_neq; lia]).
  destruct (filter _ (c0 :: c)) as [|b [|b' r]].
  - done.
  - simpl. unfold markMatched, exactPair.
    by destruct (isExactMatch em sysTxn b).
  - replace (1 <? Go.len (b :: b' :: r))%Z with true; [done|].
    symmetry. apply Z.ltb_lt. unfold Go.len. simpl length. lia.
Qed.

Lemma matchSystemTxn_cases (bankTxns : list Transaction) (st : MatchState)
    (sysTxn : Transaction) :
  (matchSystemTxn em (buildBankTxnMap em bankTxns) st sysTxn
     = markUnmatchedSystem st sysTxn
   ∧ ∀ b, filter (unmarked (matchedBankTxns st))
            (bucket em bankTxns (generateKey em sysTxn)) = [b] →
          isExactMatch em sysTxn b = false)
  ∨ ∃ b, filter (unmarked (matchedBankTxns st))
           (bucket em bankTxns (generateKey em sysTxn)) = [b]
         ∧ isExactMatch em sysTxn b = true
         ∧ matchSystemTxn em (buildBankTxnMap em bankTxns) st sysTxn
           = markMatched em st sysTxn b.
Proof.
  rewrite matchSystemTxn_bucket.
  destruct (filter _ _) as [|b [|b' r]]; [by left | | by left].
  destruct (isExactMatch em sysTxn b) eqn:Hex.
  - right. by exists b.
  - left. split; [done|]. by intros ? [= <-].
Qed.

Lemma runSystemLoop_nil (bankTxns : list Transaction) :
  runSystemLoop em [] bankTxns
  = {| result := NewMatchResult (Name em); matchedBankTxns := ∅ |}.
Proof. done. Qed.

Lemma runSystemLoop_snoc (systemTxns bankTxns : list Transaction)
    (sysTxn : Transaction) :
  runSystemLoop em (systemTxns ++ [sysTxn]) bankTxns
  = matchSystemTxn em (buildBankTxnMap em bankTxns)
      (runSystemLoop em systemTxns bankTxns) sysTxn.
Proof. unfold runSystemLoop. by rewrite foldl_snoc. Qed.

Lemma runSystemLoop_app (pre post bankTxns : list Transaction) :
  runSystemLoop em (pre ++ post) bankTxns
  = foldl (matchSystemTxn em (buildBankTxnMap em bankTxns))
      (runSystemLoop em pre bankTxns) post.
Proof. unfold runSystemLoop. by rewrite foldl_app. Qed.

(** Induction over the iterations of the loop: a property of the initial
    state that both outcomes of an iteration preserve holds when the loop
    is done. *)
Lemma runSystemLoop_ind (bankTxns : list Transaction)
    (P : list Transaction → MatchState → Prop) :
  P [] {| result := NewMatchResult (Name em); matchedBankTxns := ∅ |} →
  (∀ done_ s st,
     P done_ st →
     (∀ b, filter (unmarked (matchedBankTxns st))
             (bucket em bankTxns (generateKey em s)) = [b] →
           isExactMatch em s b = false) →
     P (done_ ++ [s]) (markUnmatchedSystem st s)) →
  (∀ done_ s st b,
     P done_ st →
     filter (unmarked (matchedBankTxns st))
       (bucket em bankTxns (generateKey em s)) = [b] →
     isExactMatch em s b = true →
     P (done_ ++ [s]) (markMatched em st s b)) →
  ∀ systemTxns, P systemTxns (runSystemLoop em systemTxns bankTxns).
Proof.
  intros Hinit Hun Hma systemTxns.
  induction systemTxns as [|s l IH] using rev_ind; [done|].
  rewrite runSystemLoop_snoc.
  destruct (matchSystemTxn_cases bankTxns (runSystemLoop em l bankTxns) s)
    as [[-> Hno]|(b & Hb & Hex & ->)]; eauto.
Qed.

(** What [Match] returns, in terms of the two loops. *)
Lemma Match_Matched (systemTxns bankTxns : list Transaction) :
  Matched (Match em systemTxns bankTxns).1
  = Matched (result (runSystemLoop em systemTxns bankTxns)).
Proof. unfold Match. simpl. apply collectUnmatchedBank_Matched. Qed.

Lemma Match_UnmatchedSystem (systemTxns bankTxns : list Transaction) :
  UnmatchedSystem (Match em systemTxns bankTxns).1
  = UnmatchedSystem (result (runSystemLoop em systemTxns bankTxns)).
Proof. unfold Match. simpl. apply collectUnmatchedBank_UnmatchedSystem. Qed.

Lemma Match_UnmatchedBank (systemTxns bankTxns : list Transaction) :
  UnmatchedBank (Match em systemTxns bankTxns).1
  = UnmatchedBank (result (runSystemLoop em systemTxns bankTxns))
    ++ filter (unmarked (matchedBankTxns (runSystemLoop em systemTxns bankTxns)))
         bankTxns.
Proof. unfold Match. simpl. apply collectUnmatchedBank_UnmatchedBank. Qed.

Lemma isMatched_insert (marks : gmap string bool) (id id' : string) :
  isMatched (<[id := true]> marks) id' = true
  ↔ id' = id ∨ isMatched marks id' = true.
Proof.
  unfold isMatched. rewrite lookup_insert.
  destruct (decide (id = id')) as [->|Hne]; simpl.
  - split; [by left | done].
  - split; [by right | by intros [->|?]].
Qed.

Lemma runSystemLoop_invariant (systemTxns bankTxns : list Transaction) :
  loop_invariant em bankTxns systemTxns (runSystemLoop em systemTxns bankTxns).
Proof.
  apply runSystemLoop_ind; clear systemTxns.
  - split; simpl; try done.
    + intros id. unfold isMatched. rewrite lookup_empty. simpl.
      split; [done|]. by intros ?%elem_of_nil.
    + constructor.
  - intros done_ s st [Hsys Hbank Hmarks Hnd Hpairs] _.
    split; simpl; try done.
    rewrite app_assoc, Hsys. by rewrite Permutation_app_comm.
  - intros done_ s st b [Hsys Hbank Hmarks Hnd Hpairs] Hb Hex.
    assert (b ∈ filter (unmarked (matchedBankTxns st))
                  (bucket em bankTxns (generateKey em s))) as Hin
      by (rewrite Hb; apply list_elem_of_singleton; done).
    apply list_elem_of_filter in Hin as [Hun Hin].
    apply list_elem_of_filter in Hin as [Hkey Hin].
    assert (ID b ∉ bankIDs (Matched (result st))) as Hfresh.
    { rewrite <- Hmarks. unfold unmarked in Hun. by rewrite Hun. }
    split; simpl.
    + rewrite fmap_app. simpl. rewrite <- Hsys.
      rewrite <- !app_assoc. apply Permutation_app_head.
      simpl. by rewrite Permutation_app_comm.
    + done.
    + intros id. rewrite isMatched_insert, Hmarks.
      unfold bankIDs. rewrite fmap_app, elem_of_app. simpl.
      rewrite list_elem_of_singleton. split; intros [?|?]; auto.
    + unfold bankIDs. rewrite fmap_app. simpl.
      apply NoDup_app. split_and!; [done| |apply NoDup_singleton].
      intros id Hid ->%list_elem_of_singleton. done.
    + apply Forall_app. split; [done|].
      apply Forall_singleton. by simpl.
Qed.

End loops.

(** ** binary64 facts behind the amount comparisons *)

Section amount_facts.

(** [x - x] is [0] or, for an infinity or NaN, NaN. *)
Lemma abs_sub_diag (a : float) :
  Prim2SF (PrimFloat.abs (PrimFloat.sub a a)) = S754_zero false
  ∨ Prim2SF (PrimFloat.abs (PrimFloat.sub a a)) = S754_nan.
Proof.
  rewrite abs_spec, sub_spec. unfold SF64sub.
  destruct (Prim2SF a) as [s|s| |s m e]; simpl.
  - left. by destruct s.
  - right. by destruct s.
  - by right.
  - left.
    set (x := cond_Zopp s (Z.pos (shl_align m e (e `min` e)%Z).1)).
    by replace (x - x)%Z with 0%Z by lia.
Qed.

Lemma amountsEqual_diag (a : float) :
  amountsEqual a a = true → Go.math_Abs (PrimFloat.sub a a) = 0%float.
Proof.
  unfold amountsEqual, Go.math_Abs. rewrite ltb_spec.
  destruct (abs_sub_diag a) as [Hz|Hn].
  - intros _. apply Prim2SF_inj. by rewrite Hz.
  - by rewrite Hn.
Qed.

(** Equal binary64 values are identical, up to the sign of zero. *)
Lemma eqb_true_cases (a b : float) :
  PrimFloat.eqb a b = true →
  a = b ∨ ∃ s1 s2, Prim2SF a = S754_zero s1 ∧ Prim2SF b = S754_zero s2.
Proof.
  rewrite FloatAxioms.eqb_spec. unfold SFeqb, SFcompare.
  destruct (Prim2SF a) as [s1|s1| |s1 m1 e1] eqn:Ha,
           (Prim2SF b) as [s2|s2| |s2 m2 e2] eqn:Hb;
    try (by destruct s1); try (by destruct s2); try done.
  - intros _. right. eauto.
  - intros H. left. apply Prim2SF_inj. rewrite Ha, Hb.
    by destruct s1, s2.
  - intros H. left. apply Prim2SF_inj. rewrite Ha, Hb.
    destruct s1, s2; try done;
      destruct (Z.compare_spec e1 e2) as [->| |]; try done;
      destruct (Pos.compare_cont Eq m1 m2) eqn:Hm; try done;
      by apply Pos.compare_eq in Hm as ->.
Qed.

Lemma formatAmount_zero (a : float) (s : bool) :
  Prim2SF a = S754_zero s → formatAmount a = formatAmount 0.
Proof.
  intros Ha. unfold formatAmount, Go.int_of_float64.
  rewrite !mul_spec, Ha. by destruct s.
Qed.

Lemma sameAmount_formatAmount (a b : float) :
  sameAmount a b → formatAmount a = formatAmount b.
Proof.
  intros [->|[->|(s1 & s2 & Ha & Hb)]%eqb_true_cases]; try done.
  by rewrite (formatAmount_zero a s1), (formatAmount_zero b s2).
Qed.

End amount_facts.

(** ** The predicates of the matcher *)

Lemma isSameDay_Date (t1 t2 : Go.Time) :
  isSameDay t1 t2 = true ↔ Go.Date t1 = Go.Date t2.
Proof.
  unfold isSameDay, Go.Date.
  rewrite !andb_true_iff, !Z.eqb_eq.
  split; [by intros [[-> ->] ->] | by intros [= -> -> ->]].
Qed.

Lemma isExactMatch_true (em : ExactMatcher) (s b : Transaction) :
  isExactMatch em s b = true
  ↔ Go.Date (TransactionDate s) = Go.Date (TransactionDate b)
    ∧ IsDebit s = IsDebit b
    ∧ amountsEqual (AbsAmount s) (AbsAmount b) = true.
Proof.
  unfold isExactMatch. rewrite <- isSameDay_Date.
  destruct (isSameDay _ _), (IsDebit s), (IsDebit b),
    (amountsEqual _ _); simpl; split; try done; by intros (? & ? & ?).
Qed.

(** Transactions that agree on calendar date, polarity and absolute amount
    have the same key. *)
Lemma sameGrouping_generateKey (em : ExactMatcher) (t1 t2 : Transaction) :
  sameGrouping t1 t2 → generateKey em t1 = generateKey em t2.
Proof.
  intros (Hd & Hp & Ha). unfold generateKey, Go.Format_date.
  unfold Go.Date in Hd. injection Hd as -> -> ->.
  by rewrite Hp, (sameAmount_formatAmount _ _ Ha).
Qed.

(** ** The pairs of a result *)

Lemma NoDup_fmap_elem_inj {A B} (f : A → B) (l : list A) (x y : A) :
  NoDup (f <$> l) → x ∈ l → y ∈ l → f x = f y → x = y.
Proof.
  induction l as [|a l IH]; intros Hnd Hx Hy Hf; [by apply elem_of_nil in Hx|].
  rewrite fmap_cons in Hnd. apply NoDup_cons in Hnd as [Hna Hnd].
  apply elem_of_cons in Hx as [->|Hx]; apply elem_of_cons in Hy as [->|Hy];
    try done.
  - exfalso. apply Hna. rewrite Hf. by apply list_elem_of_fmap_2.
  - exfalso. apply Hna. rewrite <- Hf. by apply list_elem_of_fmap_2.
  - by apply IH.
Qed.

Lemma bankIDs_fmap (pairs : list MatchPair) :
  bankIDs pairs = ID <$> (BankTransaction <$> pairs).
Proof. unfold bankIDs. by rewrite <- list_fmap_compose. Qed.

(** C7: each bank transaction appears in at most one pair of the result.
    The bank sides of the pairs carry pairwise distinct IDs, so they are
    pairwise distinct transactions: a bank transaction whose ID is marked
    is never paired again. *)
Theorem Match_bank_consumed_once (em : ExactMatcher)
    (systemTxns bankTxns : list Transaction) :
  NoDup (bankIDs (Matched (Match em systemTxns bankTxns).1))
  ∧ NoDup (BankTransaction <$> Matched (Match em systemTxns bankTxns).1).
Proof.
  rewrite Match_Matched.
  pose proof (inv_nodup _ _ _ _ (runSystemLoop_invariant em systemTxns bankTxns))
    as Hnd.
  split; [done|]. rewrite bankIDs_fmap in Hnd. by eapply NoDup_fmap_1.
Qed.

(** C10: every pair of the result satisfies the exact-match predicate: same
    calendar day, same debit polarity, absolute amounts less than 0.001
    apart; its discrepancy is that distance, so it is below 0.001 too. *)
Theorem Match_pairs_exact (em : ExactMatcher)
    (systemTxns bankTxns : list Transaction) :
  Forall (λ p,
      Go.Date (TransactionDate (SystemTransaction p))
        = Go.Date (TransactionDate (BankTransaction p))
      ∧ IsDebit (SystemTransaction p) = IsDebit (BankTransaction p)
      ∧ PrimFloat.ltb
          (PrimFloat.abs (PrimFloat.sub (AbsAmount (SystemTransaction p))
                                        (AbsAmount (BankTransaction p))))
          0.001 = true
      ∧ PrimFloat.ltb (AmountDiscrepancy p) 0.001 = true)
    (Matched (Match em systemTxns bankTxns).1).
Proof.
  rewrite Match_Matched.
  eapply Forall_impl;
    [apply (inv_pairs _ _ _ _ (runSystemLoop_invariant em systemTxns bankTxns))|].
  intros [s b c d]; simpl.
  intros (_ & _ & (Hday & Hpol & Hamt)%isExactMatch_true & Hp).
  unfold exactPair in Hp; simpl in Hp. injection Hp as -> ->.
  by split_and!.
Qed.

(** C4, as stated, fails: a system credit of 150.5004 and a bank credit of
    150.5001 share the key (both are 15050 whole cents) and are less than
    0.001 apart, so they are paired, with a discrepancy that is not 0. *)
Lemma Match_subcent_discrepancy_nonzero :
  (λ p, (ID (SystemTransaction p), ID (BankTransaction p), ConfidenceScore p))
    <$> Matched (Match exact subcent_system subcent_bank).1
  = [("SYS001", "BANK001", 100%float)]
  ∧ Forall (λ p, PrimFloat.ltb 0 (AmountDiscrepancy p) = true
                 ∧ PrimFloat.eqb (AmountDiscrepancy p) 0 = false)
      (Matched (Match exact subcent_system subcent_bank).1).
Proof. split; [by vm_compute|]. vm_compute. by repeat constructor. Qed.

(** C4 (amended): every pair of the result has confidence 100, and its
    discrepancy is the distance between the two absolute amounts: 0 when
    the absolute amounts are equal, and below 0.001 in any case. The key
    the two sides share does not make the amounts equal. *)
Theorem Match_pairs_confidence_discrepancy (em : ExactMatcher)
    (systemTxns bankTxns : list Transaction) :
  Forall (λ p,
      ConfidenceScore p = 100%float
      ∧ AmountDiscrepancy p
        = PrimFloat.abs (PrimFloat.sub (AbsAmount (SystemTransaction p))
                                       (AbsAmount (BankTransaction p)))
      ∧ (AbsAmount (SystemTransaction p) = AbsAmount (BankTransaction p) →
         AmountDiscrepancy p = 0%float)
      ∧ PrimFloat.ltb (AmountDiscrepancy p) epsilon = true
      ∧ generateKey em (SystemTransaction p) = generateKey em (BankTransaction p))
    (Matched (Match em systemTxns bankTxns).1).
Proof.
  rewrite Match_Matched.
  eapply Forall_impl;
    [apply (inv_pairs _ _ _ _ (runSystemLoop_invariant em systemTxns bankTxns))|].
  intros [s b c d]; simpl.
  intros (_ & Hkey & (Hday & Hpol & Hamt)%isExactMatch_true & Hp).
  unfold exactPair in Hp; simpl in Hp. injection Hp as -> ->.
  split_and!; try done.
  intros Heq. unfold calculateDiscrepancy. rewrite Heq in Hamt |- *.
  by apply amountsEqual_diag.
Qed.

(** ** Partition completeness *)

(** The system side: the system transactions of the pairs, followed by the
    unmatched system transactions, are the input up to order. *)
Lemma Match_system_partition (em : ExactMatcher)
    (systemTxns bankTxns : list Transaction) :
  (SystemTransaction <$> Matched (Match em systemTxns bankTxns).1)
    ++ UnmatchedSystem (Match em systemTxns bankTxns).1 ≡ₚ systemTxns
  ∧ length (Matched (Match em systemTxns bankTxns).1)
    + length (UnmatchedSystem (Match em systemTxns bankTxns).1)
    = length systemTxns.
Proof.
  rewrite Match_Matched, Match_UnmatchedSystem.
  pose proof (inv_system _ _ _ _ (runSystemLoop_invariant em systemTxns bankTxns))
    as Hsys.
  split; [done|]. apply Permutation_length in Hsys.
  by rewrite length_app, length_fmap in Hsys.
Qed.

(** The bank side, when the bank transactions carry pairwise distinct IDs:
    the bank transactions of the pairs, followed by the unmatched bank
    transactions, are the input up to order. *)
Lemma Match_bank_partition (em : ExactMatcher)
    (systemTxns bankTxns : list Transaction) :
  NoDup (ID <$> bankTxns) →
  (BankTransaction <$> Matched (Match em systemTxns bankTxns).1)
    ++ UnmatchedBank (Match em systemTxns bankTxns).1 ≡ₚ bankTxns
  ∧ length (Matched (Match em systemTxns bankTxns).1)
    + length (UnmatchedBank (Match em systemTxns bankTxns).1)
    = length bankTxns.
Proof.
  intros Hids.
  rewrite Match_Matched, Match_UnmatchedBank.
  destruct (runSystemLoop_invariant em systemTxns bankTxns)
    as [_ Hempty Hmarks Hnd Hpairs].
  rewrite Hempty. simpl.
  set (st := runSystemLoop em systemTxns bankTxns) in *.
  assert ((BankTransaction <$> Matched (result st))
            ++ filter (unmarked (matchedBankTxns st)) bankTxns ≡ₚ bankTxns)
    as Hperm.
  { etrans; [|apply (filter_app_complement (unmarked (matchedBankTxns st)))].
    rewrite Permutation_app_comm. apply Permutation_app_head.
    apply NoDup_Permutation.
    - rewrite bankIDs_fmap in Hnd. by eapply NoDup_fmap_1.
    - apply NoDup_filter. by eapply NoDup_fmap_1.
    - intros b. rewrite list_elem_of_filter, list_elem_of_fmap.
      unfold unmarked. rewrite not_false_iff_true, Hmarks.
      unfold bankIDs. rewrite list_elem_of_fmap. split.
      + intros (p & -> & Hp). split; [by exists p|].
        rewrite Forall_forall in Hpairs. by apply Hpairs.
      + intros [(p & Hid & Hp) Hb]. exists p. split; [|done].
        rewrite Forall_forall in Hpairs.
        destruct (Hpairs p Hp) as (Hpb & _).
        symmetry. by eapply (NoDup_fmap_elem_inj ID bankTxns). }
  split; [done|]. apply Permutation_length in Hperm.
  by rewrite length_app, length_fmap in Hperm.
Qed.

(** C1 fails on bank transactions that share an ID: the second TX001 is
    neither in a pair nor among the unmatched bank transactions; the result
    accounts for one bank transaction out of two. *)
Theorem Match_drops_bank_txn_with_shared_ID :
  let r := (Match exact shared_ID_system shared_ID_bank).1 in
  Source <$> shared_ID_bank = ["BCA"; "MANDIRI"]
  ∧ Source <$> (BankTransaction <$> Matched r) = ["BCA"]
  ∧ UnmatchedBank r = []
  ∧ UnmatchedSystem r = []
  ∧ length (Matched r) + length (UnmatchedBank r) = 1
  ∧ length shared_ID_bank = 2
  ∧ TotalBankTxns r = 1%Z.
Proof. by vm_compute. Qed.

(** ** Ambiguity *)

(** Two positions of a list that both pass a filter leave at least two
    elements in the filtered list. *)
Lemma filter_two_positions {A} (P : A → Prop) `{!∀ x, Decision (P x)}
    (l : list A) (i j : nat) (x y : A) :
  l !! i = Some x → l !! j = Some y → i ≠ j → P x → P y →
  ∃ a b r, filter P l = a :: b :: r.
Proof.
  revert i j. induction l as [|c l IH]; intros i j Hi Hj Hij Hx Hy; [done|].
  assert (∀ z, z ∈ l → P z → ∃ b r, filter P l = b :: r) as Hne.
  { intros z Hz HPz.
    assert (z ∈ filter P l) as Hzf by by apply list_elem_of_filter.
    destruct (filter P l) as [|b r]; [by apply elem_of_nil in Hzf|eauto]. }
  destruct i as [|i], j as [|j]; simpl in *; try done.
  - injection Hi as ->. rewrite filter_cons_True by done.
    destruct (Hne y) as (b & r & ->); [by eapply list_elem_of_lookup_2|done|].
    eauto.
  - injection Hj as ->. rewrite filter_cons_True by done.
    destruct (Hne x) as (b & r & ->); [by eapply list_elem_of_lookup_2|done|].
    eauto.
  - destruct (IH i j) as (a & b & r & Hf); try done; [congruence|].
    rewrite filter_cons, Hf. destruct (decide (P c)); eauto.
Qed.

(** Whatever is unmatched stays unmatched for the rest of the loop. *)
Lemma UnmatchedSystem_stays (em : ExactMatcher) (bankTxns rest : list Transaction)
    (st : MatchState) (s : Transaction) :
  s ∈ UnmatchedSystem (result st) →
  s ∈ UnmatchedSystem
        (result (foldl (matchSystemTxn em (buildBankTxnMap em bankTxns)) st rest)).
Proof.
  revert st. induction rest as [|t rest IH]; intros st Hs; simpl; [done|].
  apply IH.
  destruct (matchSystemTxn_cases em bankTxns st t) as [[-> _]|(b & _ & _ & ->)];
    simpl; [|done].
  apply elem_of_app. by left.
Qed.

(** With pairwise distinct bank IDs, a bank transaction that is in no pair
    is unmarked. *)
Lemma unpaired_unmarked (em : ExactMatcher) (systemTxns bankTxns : list Transaction)
    (b : Transaction) :
  NoDup (ID <$> bankTxns) → b ∈ bankTxns →
  b ∉ BankTransaction <$> Matched (result (runSystemLoop em systemTxns bankTxns)) →
  unmarked (matchedBankTxns (runSystemLoop em systemTxns bankTxns)) b.
Proof.
  intros Hids Hb Hnot.
  destruct (runSystemLoop_invariant em systemTxns bankTxns)
    as [_ _ Hmarks _ Hpairs].
  unfold unmarked. apply not_true_is_false. intros Hm.
  apply Hmarks in Hm. unfold bankIDs in Hm.
  apply list_elem_of_fmap in Hm as (p & Hid & Hp).
  rewrite Forall_forall in Hpairs. destruct (Hpairs p Hp) as (Hpb & _).
  apply Hnot. apply list_elem_of_fmap. exists p. split; [|done].
  by eapply (NoDup_fmap_elem_inj ID bankTxns).
Qed.


(** The ambiguous branch: when the loop reaches a system transaction and
    two positions of the bank sequence hold transactions with its grouping
    key whose IDs are both unmarked, the system transaction is appended to
    the unmatched system transactions, no pair is emitted and no mark is
    set; it is still unmatched in the result. *)
Lemma ambiguous_unmarked_candidates (em : ExactMatcher)
    (pre post bankTxns : list Transaction) (s b1 b2 : Transaction)
    (i j : nat) :
  bankTxns !! i = Some b1 → bankTxns !! j = Some b2 → i ≠ j →
  sameGrouping b1 s → sameGrouping b2 s →
  unmarked (matchedBankTxns (runSystemLoop em pre bankTxns)) b1 →
  unmarked (matchedBankTxns (runSystemLoop em pre bankTxns)) b2 →
  runSystemLoop em (pre ++ [s]) bankTxns
  = markUnmatchedSystem (runSystemLoop em pre bankTxns) s
  ∧ s ∈ UnmatchedSystem (Match em (pre ++ s :: post) bankTxns).1.
Proof.
  intros Hi Hj Hij Hg1 Hg2 Hu1 Hu2.
  set (st := runSystemLoop em pre bankTxns) in *.
  assert (runSystemLoop em (pre ++ [s]) bankTxns = markUnmatchedSystem st s)
    as Hst'.
  { rewrite runSystemLoop_snoc, matchSystemTxn_bucket. fold st.
    unfold bucket. rewrite list_filter_filter.
    destruct (filter_two_positions
                (λ b, unmarked (matchedBankTxns st) b
                      ∧ generateKey em b = generateKey em s)
                bankTxns i j b1 b2) as (a & b & r & ->); try done.
    - split; [done|]. by apply sameGrouping_generateKey.
    - split; [done|]. by apply sameGrouping_generateKey. }
  split; [done|].
  rewrite Match_UnmatchedSystem.
  replace (pre ++ s :: post) with ((pre ++ [s]) ++ post)
    by by rewrite <- app_assoc.
  rewrite runSystemLoop_app, Hst'.
  apply UnmatchedSystem_stays. simpl.
  apply elem_of_app. right. by apply list_elem_of_singleton.
Qed.

(** C2 fails on bank transactions that share an ID. The two bank debits
    TX001 (BCA) and TX002 have the grouping key of the system debit SYS001,
    and the third bank transaction reuses the identifier TX001. When SYS002
    comes first it is paired with that third transaction, which marks the
    identifier TX001; SYS001 then finds two bank transactions with its key,
    neither of them in a pair, and is paired with TX002 all the same. In
    the other order SYS001 is unmatched, but the first TX001, which no
    system transaction ever claims, is not among the unmatched bank
    transactions of the result. *)
Theorem ambiguity_lost_with_shared_ID :
  ID <$> reused_ID_bank = ["TX001"; "TX002"; "TX001"]%string
  ∧ sameGrouping reused_ID_first reused_ID_early
  ∧ sameGrouping reused_ID_rival reused_ID_early
  ∧ Matched (result (runSystemLoop exact [reused_ID_late] reused_ID_bank))
    = [exactPair exact reused_ID_late reused_ID_second]
  ∧ Matched (Match exact [reused_ID_late; reused_ID_early] reused_ID_bank).1
    = [exactPair exact reused_ID_late reused_ID_second;
       exactPair exact reused_ID_early reused_ID_rival]
  ∧ UnmatchedSystem (Match exact [reused_ID_late; reused_ID_early] reused_ID_bank).1
    = []
  ∧ Matched (Match exact [reused_ID_early; reused_ID_late] reused_ID_bank).1
    = [exactPair exact reused_ID_late reused_ID_second]
  ∧ UnmatchedSystem (Match exact [reused_ID_early; reused_ID_late] reused_ID_bank).1
    = [reused_ID_early]
  ∧ UnmatchedBank (Match exact [reused_ID_early; reused_ID_late] reused_ID_bank).1
    = [reused_ID_rival].
Proof.
  split_and!; try by vm_compute.
  - split_and!; [by vm_compute | by vm_compute | left; by vm_compute].
  - split_and!; [by vm_compute | by vm_compute | left; by vm_compute].
Qed.

(** ** The order of the inputs *)

Section order.
Context (em : ExactMatcher).

Lemma bucket_Permutation (bankTxns bankTxns' : list Transaction) (key : string) :
  bankTxns ≡ₚ bankTxns' → bucket em bankTxns key ≡ₚ bucket em bankTxns' key.
Proof. intros Hp. unfold bucket. by rewrite Hp. Qed.

(** An iteration reads the bucket only through its unmarked candidates,
    and acts on them only when there is exactly one: the order of the bank
    transactions does not matter to it. *)
Lemma matchSystemTxn_Permutation (bankTxns bankTxns' : list Transaction)
    (st : MatchState) (s : Transaction) :
  bankTxns ≡ₚ bankTxns' →
  matchSystemTxn em (buildBankTxnMap em bankTxns) st s
  = matchSystemTxn em (buildBankTxnMap em bankTxns') st s.
Proof.
  intros Hp. rewrite !matchSystemTxn_bucket.
  assert (filter (unmarked (matchedBankTxns st))
            (bucket em bankTxns (generateKey em s))
          ≡ₚ filter (unmarked (matchedBankTxns st))
               (bucket em bankTxns' (generateKey em s))) as Hf
    by by rewrite (bucket_Permutation _ _ _ Hp).
  destruct (filter _ (bucket em bankTxns _)) as [|b [|b' r]].
  - apply Permutation_nil_l in Hf. by rewrite <- Hf.
  - apply Permutation_singleton_l in Hf. by rewrite <- Hf.
  - destruct (filter _ (bucket em bankTxns' _)) as [|c [|c' r']]; [| |done];
      by apply Permutation_length in Hf.
Qed.

Lemma runSystemLoop_bank_Permutation (systemTxns bankTxns bankTxns' : list Transaction) :
  bankTxns ≡ₚ bankTxns' →
  runSystemLoop em systemTxns bankTxns = runSystemLoop em systemTxns bankTxns'.
Proof.
  intros Hp. unfold runSystemLoop. apply foldl_ext.
  intros st s. by apply matchSystemTxn_Permutation.
Qed.

Lemma filter_all {A} (P : A → Prop) `{!∀ x, Decision (P x)} (l : list A) :
  (∀ x, x ∈ l → P x) → filter P l = l.
Proof.
  induction l as [|a l IH]; intros Hall; [done|].
  rewrite filter_cons_True by (apply Hall; left). f_equal.
  apply IH. intros x Hx. apply Hall. by right.
Qed.

Lemma claimable_mono (bankTxns done_ done' : list Transaction) (b : Transaction) :
  (∀ s, s ∈ done_ → s ∈ done') →
  claimable em bankTxns done_ b → claimable em bankTxns done' b.
Proof.
  intros Hsub (Hb & Hbucket & s & Hs & Hkey & Hex).
  split_and!; try done. exists s. split_and!; auto.
Qed.

(** With pairwise distinct bank IDs, the marks when the loop is done are
    the IDs of the claimable bank transactions. *)
Lemma marks_claimable (systemTxns bankTxns : list Transaction) :
  NoDup (ID <$> bankTxns) →
  ∀ id, isMatched (matchedBankTxns (runSystemLoop em systemTxns bankTxns)) id = true
        ↔ ∃ b, ID b = id ∧ claimable em bankTxns systemTxns b.
Proof.
  intros Hids. apply (runSystemLoop_ind em bankTxns
    (λ done_ st, ∀ id, isMatched (matchedBankTxns st) id = true
                       ↔ ∃ b, ID b = id ∧ claimable em bankTxns done_ b)).
  - intros id. simpl. unfold isMatched. rewrite lookup_empty. simpl.
    split; [done|]. intros (b & _ & _ & _ & s & Hs & _).
    by apply elem_of_nil in Hs.
  - intros done_ s st IH Hno id. simpl. rewrite IH. split.
    + intros (b & Hid & Hc). exists b. split; [done|].
      eapply claimable_mono; [|done]. intros x Hx. apply elem_of_app. by left.
    + intros (b & Hid & Hb & Hbucket & s0 & Hs0 & Hkey & Hex).
      apply elem_of_app in Hs0 as [Hs0 | ->%list_elem_of_singleton].
      { exists b. split; [done|]. split_and!; try done. by exists s0. }
      apply IH.
      destruct (isMatched (matchedBankTxns st) id) eqn:Hm; [done|].
      exfalso. specialize (Hno b). rewrite Hkey, Hbucket in Hno.
      rewrite filter_cons_True, filter_nil in Hno
        by (unfold unmarked; congruence).
      rewrite Hno in Hex; done.
  - intros done_ s st b0 IH Hb0 Hex id. simpl.
    assert (b0 ∈ filter (unmarked (matchedBankTxns st))
                  (bucket em bankTxns (generateKey em s))) as Hin
      by (rewrite Hb0; by apply list_elem_of_singleton).
    apply list_elem_of_filter in Hin as [Hun Hin].
    pose proof Hin as Hin'.
    apply list_elem_of_filter in Hin' as [Hkey0 Hbs0].
    assert (bucket em bankTxns (generateKey em s) = [b0]) as Hbucket.
    { rewrite <- Hb0. symmetry. apply filter_all. intros b' Hb'.
      destruct (decide (unmarked (matchedBankTxns st) b')) as [|Hm]; [done|].
      exfalso. unfold unmarked in Hm. apply not_false_is_true in Hm.
      pose proof Hm as Hmarked.
      apply IH in Hm as (b'' & Hid'' & Hb'' & Hbucket'' & _).
      pose proof Hb' as Hb'2.
      apply list_elem_of_filter in Hb'2 as [Hkey' Hbs'].
      assert (b'' = b') as -> by by eapply (NoDup_fmap_elem_inj ID bankTxns).
      rewrite Hkey' in Hbucket''. rewrite Hbucket'' in Hin.
      apply list_elem_of_singleton in Hin as ->.
      unfold unmarked in Hun. congruence. }
    rewrite isMatched_insert, IH. split.
    + intros [->|(b & Hid & Hc)].
      * exists b0. split; [done|]. split_and!; try done.
        -- by rewrite Hkey0.
        -- exists s. split_and!; try done.
           apply elem_of_app. right. by apply list_elem_of_singleton.
      * exists b. split; [done|].
        eapply claimable_mono; [|done]. intros x Hx. apply elem_of_app. by left.
    + intros (b & Hid & Hb & Hbucketb & s0 & Hs0 & Hkey & Hex0).
      apply elem_of_app in Hs0 as [Hs0 | ->%list_elem_of_singleton].
      { right. exists b. split; [done|]. split_and!; try done. by exists s0. }
      left. rewrite Hkey, Hbucketb in Hbucket. by injection Hbucket as ->.
Qed.

End order.

Lemma Match_MatchRate (em : ExactMatcher) (systemTxns bankTxns : list Transaction) :
  MatchRate (Match em systemTxns bankTxns).1
  = CalculateMatchRate
      (Go.len (Matched (Match em systemTxns bankTxns).1))
      (Go.int_add (Go.len (Matched (Match em systemTxns bankTxns).1))
                  (Go.len (UnmatchedSystem (Match em systemTxns bankTxns).1)))
      (Go.int_add (Go.len (Matched (Match em systemTxns bankTxns).1))
                  (Go.len (UnmatchedBank (Match em systemTxns bankTxns).1))).
Proof. done. Qed.

(** C9, as stated, fails: two system transactions that compete for one
    bank transaction are served in input order, so swapping them changes
    which one is paired and which one is unmatched. *)
Lemma Match_depends_on_system_order :
  [rival_first; rival_second] ≡ₚ [rival_second; rival_first]
  ∧ (λ p, (ID (SystemTransaction p), ID (BankTransaction p)))
      <$> Matched (Match exact [rival_first; rival_second] rival_bank).1
    = [("SYS001", "BANK001")]
  ∧ ID <$> UnmatchedSystem (Match exact [rival_first; rival_second] rival_bank).1
    = ["SYS002"]
  ∧ (λ p, (ID (SystemTransaction p), ID (BankTransaction p)))
      <$> Matched (Match exact [rival_second; rival_first] rival_bank).1
    = [("SYS002", "BANK001")]
  ∧ ID <$> UnmatchedSystem (Match exact [rival_second; rival_first] rival_bank).1
    = ["SYS001"].
Proof. split; [apply perm_swap | by vm_compute]. Qed.

(** C9 (amended): the order of the bank sequence is irrelevant: a
    permutation of it yields the same pairs and the same unmatched system
    transactions, in the same order, a permutation of the unmatched bank
    transactions, and the same match rate. The order of the system sequence
    decides which system transaction gets a contested bank transaction;
    when the bank IDs are pairwise distinct, a permutation of the system
    sequence still yields the same unmatched bank transactions, partitions
    of the same sizes and the same match rate. *)
Theorem Match_input_order (em : ExactMatcher)
    (systemTxns systemTxns' bankTxns bankTxns' : list Transaction) :
  systemTxns ≡ₚ systemTxns' → bankTxns ≡ₚ bankTxns' →
  (Matched (Match em systemTxns bankTxns').1
     = Matched (Match em systemTxns bankTxns).1
   ∧ UnmatchedSystem (Match em systemTxns bankTxns').1
     = UnmatchedSystem (Match em systemTxns bankTxns).1
   ∧ UnmatchedBank (Match em systemTxns bankTxns').1
     ≡ₚ UnmatchedBank (Match em systemTxns bankTxns).1
   ∧ MatchRate (Match em systemTxns bankTxns').1
     = MatchRate (Match em systemTxns bankTxns).1)
  ∧ (NoDup (ID <$> bankTxns) →
     UnmatchedBank (Match em systemTxns' bankTxns).1
       = UnmatchedBank (Match em systemTxns bankTxns).1
     ∧ length (Matched (Match em systemTxns' bankTxns).1)
       = length (Matched (Match em systemTxns bankTxns).1)
     ∧ length (UnmatchedSystem (Match em systemTxns' bankTxns).1)
       = length (UnmatchedSystem (Match em systemTxns bankTxns).1)
     ∧ MatchRate (Match em systemTxns' bankTxns).1
       = MatchRate (Match em systemTxns bankTxns).1).
Proof.
  intros Hsys Hbank. split.
  - assert (Matched (Match em systemTxns bankTxns').1
            = Matched (Match em systemTxns bankTxns).1) as HM
      by by rewrite !Match_Matched, (runSystemLoop_bank_Permutation _ _ _ _ Hbank).
    assert (UnmatchedSystem (Match em systemTxns bankTxns').1
            = UnmatchedSystem (Match em systemTxns bankTxns).1) as HS
      by by rewrite !Match_UnmatchedSystem,
              (runSystemLoop_bank_Permutation _ _ _ _ Hbank).
    assert (UnmatchedBank (Match em systemTxns bankTxns').1
            ≡ₚ UnmatchedBank (Match em systemTxns bankTxns).1) as HB
      by by rewrite !Match_UnmatchedBank,
              (runSystemLoop_bank_Permutation _ _ _ _ Hbank), Hbank.
    split_and!; try done.
    rewrite !Match_MatchRate, HM, HS. unfold Go.len.
    by rewrite (Permutation_length HB).
  - intros Hids.
    assert (UnmatchedBank (Match em systemTxns' bankTxns).1
            = UnmatchedBank (Match em systemTxns bankTxns).1) as HB.
    { rewrite !Match_UnmatchedBank.
      rewrite !(inv_bank_empty _ _ _ _ (runSystemLoop_invariant em _ bankTxns)).
      simpl. apply list_filter_iff. intros b. unfold unmarked.
      rewrite <- !not_true_iff_false, !marks_claimable by done.
      apply not_iff_compat.
      split; intros (b' & Hid & Hc); exists b'; (split; [done|]);
        (eapply claimable_mono; [|done]); intros x; by rewrite Hsys. }
    destruct (Match_bank_partition em systemTxns bankTxns Hids) as [_ Hb].
    destruct (Match_bank_partition em systemTxns' bankTxns Hids) as [_ Hb'].
    destruct (Match_system_partition em systemTxns bankTxns) as [_ Hs].
    destruct (Match_system_partition em systemTxns' bankTxns) as [_ Hs'].
    pose proof (Permutation_length Hsys) as Hlen.
    rewrite HB in Hb'.
    assert (length (Matched (Match em systemTxns' bankTxns).1)
            = length (Matched (Match em systemTxns bankTxns).1)) as HM by lia.
    assert (length (UnmatchedSystem (Match em systemTxns' bankTxns).1)
            = length (UnmatchedSystem (Match em systemTxns bankTxns).1)) as HS
      by lia.
    split_and!; try done.
    rewrite !Match_MatchRate. unfold Go.len. by rewrite HM, HS, HB.
Qed.

(** C9 (amended) at the ambiguous case of the test suite, with both
    sequences reversed. *)
Lemma Match_input_order_witness :
  (Matched (Match exact [rival_first; rival_second] (reverse ambiguous_bank)).1
     = Matched (Match exact [rival_first; rival_second] ambiguous_bank).1
   ∧ UnmatchedSystem (Match exact [rival_first; rival_second] (reverse ambiguous_bank)).1
     = UnmatchedSystem (Match exact [rival_first; rival_second] ambiguous_bank).1
   ∧ UnmatchedBank (Match exact [rival_first; rival_second] (reverse ambiguous_bank)).1
     ≡ₚ UnmatchedBank (Match exact [rival_first; rival_second] ambiguous_bank).1
   ∧ MatchRate (Match exact [rival_first; rival_second] (reverse ambiguous_bank)).1
     = MatchRate (Match exact [rival_first; rival_second] ambiguous_bank).1)
  ∧ (NoDup (ID <$> ambiguous_bank) →
     UnmatchedBank (Match exact [rival_second; rival_first] ambiguous_bank).1
       = UnmatchedBank (Match exact [rival_first; rival_second] ambiguous_bank).1
     ∧ length (Matched (Match exact [rival_second; rival_first] ambiguous_bank).1)
       = length (Matched (Match exact [rival_first; rival_second] ambiguous_bank).1)
     ∧ length (UnmatchedSystem (Match exact [rival_second; rival_first] ambiguous_bank).1)
       = length (UnmatchedSystem (Match exact [rival_first; rival_second] ambiguous_bank).1)
     ∧ MatchRate (Match exact [rival_second; rival_first] ambiguous_bank).1
       = MatchRate (Match exact [rival_first; rival_second] ambiguous_bank).1).
Proof.
  apply (Match_input_order exact [rival_first; rival_second]
           [rival_second; rival_first] ambiguous_bank (reverse ambiguous_bank)).
  - apply perm_swap.
  - apply perm_swap.
Defined.

(** ** Statistics *)

Lemma wrap64_small (z : Z) : (0 ≤ z < 2 ^ 63)%Z → Go.wrap64 z = z.
Proof. intros Hz. unfold Go.wrap64. rewrite Z.mod_small; lia. Qed.

Lemma len_nonneg {A} (l : list A) : (0 ≤ Go.len l)%Z.
Proof. unfold Go.len. lia. Qed.

(** C8: as long as the counts fit an [int], [Finalize] sets the totals to
    the sizes of the partitions and the match rate to 100 when both totals
    are zero, and otherwise to twice the number of pairs, divided by the sum
    of the two totals, times 100, in binary64 arithmetic. Matching two empty
    sequences gives three empty partitions and a match rate of 100. *)
Theorem Finalize_MatchRate (mr : MatchResult) :
  (2 * Go.len (Matched mr) + Go.len (UnmatchedSystem mr)
     + Go.len (UnmatchedBank mr) < 2 ^ 63)%Z →
  let r := Finalize mr in
  TotalMatched r = Go.len (Matched mr)
  ∧ TotalSystemTxns r = (Go.len (Matched mr) + Go.len (UnmatchedSystem mr))%Z
  ∧ TotalBankTxns r = (Go.len (Matched mr) + Go.len (UnmatchedBank mr))%Z
  ∧ MatchRate r
    = (if ((TotalSystemTxns r =? 0) && (TotalBankTxns r =? 0))%Z
       then 100%float
       else PrimFloat.mul
              (PrimFloat.div
                 (Go.float64_of_int (2 * TotalMatched r))
                 (Go.float64_of_int (TotalSystemTxns r + TotalBankTxns r)))
              100)
  ∧ ∀ em : ExactMatcher,
      Match em [] []
      = ({| Matched := []; UnmatchedSystem := []; UnmatchedBank := [];
            AlgorithmUsed := "exact"; MatchRate := 100;
            TotalSystemTxns := 0; TotalBankTxns := 0; TotalMatched := 0;
            TotalDiscrepancy := 0 |}, None).
Proof.
  intros Hfit r.
  pose proof (len_nonneg (Matched mr)) as Hm.
  pose proof (len_nonneg (UnmatchedSystem mr)) as Hs.
  pose proof (len_nonneg (UnmatchedBank mr)) as Hb.
  assert (TotalSystemTxns r
          = (Go.len (Matched mr) + Go.len (UnmatchedSystem mr))%Z) as HS
    by (simpl; unfold Go.int_add; apply wrap64_small; lia).
  assert (TotalBankTxns r
          = (Go.len (Matched mr) + Go.len (UnmatchedBank mr))%Z) as HB
    by (simpl; unfold Go.int_add; apply wrap64_small; lia).
  split_and!; try done.
  change (MatchRate r) with
    (CalculateMatchRate (TotalMatched r) (TotalSystemTxns r) (TotalBankTxns r)).
  unfold CalculateMatchRate. destruct (_ && _); [done|].
  unfold Go.int_add, Go.int_mul.
  rewrite !wrap64_small by (rewrite ?HS, ?HB; simpl; lia).
  by rewrite (Z.mul_comm (TotalMatched r) 2).
Qed.

(** C8 at the statistics case of the test suite: one pair, one unmatched
    system transaction, a match rate of 2/3. *)
Lemma Finalize_MatchRate_witness :
  TotalMatched (Finalize statistics_partitions) = 1%Z
  ∧ TotalSystemTxns (Finalize statistics_partitions) = 2%Z
  ∧ TotalBankTxns (Finalize statistics_partitions) = 1%Z
  ∧ MatchRate (Finalize statistics_partitions)
    = PrimFloat.mul (PrimFloat.div (Go.float64_of_int 2) (Go.float64_of_int 3)) 100.
Proof.
  destruct (Finalize_MatchRate statistics_partitions) as (HM & HS & HB & HR & _).
  - vm_compute. reflexivity.
  - rewrite HR, HM, HS, HB. split_and!; reflexivity.
Defined.

(** ** The key as a string *)

Section key_facts.

Lemma has_char_app (c : ascii) (s1 s2 : string) :
  has_char c (s1 ++ s2) = has_char c s1 || has_char c s2.
Proof.
  induction s1 as [|a s1 IH]; simpl; [done|]. by rewrite IH, orb_assoc.
Qed.


Lemma has_char_string_of_uint (c : ascii) (d : Decimal.uint) :
  has_char c "0123456789" = false →
  has_char c (NilEmpty.string_of_uint d) = false.
Proof.
  simpl. rewrite !orb_false_iff. intros (?&?&?&?&?&?&?&?&?&?&_).
  induction d; simpl; rewrite ?orb_false_iff; auto.
Qed.

Lemma has_char_digits (c : ascii) (x : Z) :
  has_char c "0123456789" = false → has_char c (Go.digits x) = false.
Proof.
  intros Hc. unfold Go.digits, NilZero.string_of_uint.
  destruct (N.to_uint _) eqn:Hd; try (rewrite <- Hd; clear Hd);
    try by apply has_char_string_of_uint.
  simpl in *. by apply orb_false_iff in Hc as [-> _].
Qed.

Lemma has_char_zeros (c : ascii) (n : nat) :
  has_char c "0123456789" = false → has_char c (Go.zeros n) = false.
Proof.
  intros Hc. induction n as [|n IH]; simpl; [done|]. rewrite IH.
  simpl in Hc. by apply orb_false_iff in Hc as [-> _].
Qed.

(** The digits of [appendInt], without the sign. *)
Lemma appendInt_sign (x : Z) (w : nat) :
  Go.appendInt x w
  = if (x <? 0)%Z
    then String "-" (Go.zeros (w - String.length (Go.digits x)) ++ Go.digits x)
    else (Go.zeros (w - String.length (Go.digits x)) ++ Go.digits x)%string.
Proof. done. Qed.

Lemma has_char_padded (c : ascii) (x : Z) (w : nat) :
  has_char c "0123456789" = false →
  has_char c (Go.zeros (w - String.length (Go.digits x)) ++ Go.digits x) = false.
Proof.
  intros Hc. by rewrite has_char_app, has_char_zeros, has_char_digits.
Qed.

Lemma decodeDigits_zeros (n : nat) (s : string) :
  decodeDigits (Go.zeros n ++ s) = decodeDigits s.
Proof.
  unfold decodeDigits. induction n as [|n IH]; simpl; [done|].
  destruct (NilEmpty.uint_of_string (Go.zeros n ++ s)) as [d|] eqn:Hd;
    destruct (NilEmpty.uint_of_string s) as [d'|]; simpl in *; try done.
Qed.

Lemma decodeDigits_digits (x : Z) :
  decodeDigits (Go.digits x) = Some (Z.abs_N x).
Proof.
  unfold decodeDigits, Go.digits, NilZero.string_of_uint.
  rewrite <- (DecimalN.Unsigned.of_to (Z.abs_N x)) at 2.
  destruct (N.to_uint (Z.abs_N x)) eqn:Hd; try done;
    rewrite <- Hd at 1; by rewrite NilEmpty.usu, Hd.
Qed.

Lemma padded_inj (x y : Z) (w w' : nat) :
  (Go.zeros (w - String.length (Go.digits x)) ++ Go.digits x
   = Go.zeros (w' - String.length (Go.digits y)) ++ Go.digits y)%string →
  Z.abs_N x = Z.abs_N y.
Proof.
  intros Heq. apply (f_equal decodeDigits) in Heq.
  rewrite !decodeDigits_zeros, !decodeDigits_digits in Heq. by injection Heq.
Qed.

(** [appendInt] prints different numbers differently. *)
Lemma appendInt_inj (x y : Z) (w w' : nat) :
  Go.appendInt x w = Go.appendInt y w' → x = y.
Proof.
  rewrite !appendInt_sign.
  destruct (Z.ltb_spec x 0), (Z.ltb_spec y 0).
  - intros [= Heq%padded_inj]. lia.
  - intros Heq. apply (f_equal (has_char "-")) in Heq.
    rewrite (has_char_padded "-" y) in Heq; done.
  - intros Heq. apply (f_equal (has_char "-")) in Heq.
    rewrite (has_char_padded "-" x) in Heq; done.
  - intros Heq%padded_inj. lia.
Qed.






End key_facts.

(** ** The amount component of the key *)

Section rune_facts.

Lemma forallb_range (P : Z → bool) (n : nat) :
  forallb P (Z.of_nat <$> seq 0 n) = true →
  ∀ y, (0 ≤ y < Z.of_nat n)%Z → P y = true.
Proof.
  intros Hall y Hy. rewrite forallb_forall in Hall. apply Hall.
  apply list_elem_of_In, list_elem_of_fmap. exists (Z.to_nat y).
  split; [lia|]. apply elem_of_seq. lia.
Qed.

(** On the payload bits of a UTF-8 byte, [|] with the marker is [+]. *)
Lemma lor_marker (y : Z) :
  ((0 ≤ y < 64)%Z → Z.lor 128 y = (128 + y)%Z)
  ∧ ((0 ≤ y < 32)%Z → Z.lor 192 y = (192 + y)%Z)
  ∧ ((0 ≤ y < 16)%Z → Z.lor 224 y = (224 + y)%Z)
  ∧ ((0 ≤ y < 8)%Z → Z.lor 240 y = (240 + y)%Z).
Proof.
  split_and!; intros Hy.
  - apply Z.eqb_eq.
    apply (forallb_range (λ y, Z.lor 128 y =? 128 + y)%Z 64);
      [vm_compute; reflexivity | lia].
  - apply Z.eqb_eq.
    apply (forallb_range (λ y, Z.lor 192 y =? 192 + y)%Z 32);
      [vm_compute; reflexivity | lia].
  - apply Z.eqb_eq.
    apply (forallb_range (λ y, Z.lor 224 y =? 224 + y)%Z 16);
      [vm_compute; reflexivity | lia].
  - apply Z.eqb_eq.
    apply (forallb_range (λ y, Z.lor 240 y =? 240 + y)%Z 8);
      [vm_compute; reflexivity | lia].
Qed.

Lemma land_63 (x : Z) : Z.land x 63 = (x mod 64)%Z.
Proof. apply (Z.land_ones x 6). lia. Qed.

Lemma byte_inj (x y : Z) :
  (0 ≤ x < 256)%Z → (0 ≤ y < 256)%Z → Go.byte x = Go.byte y → x = y.
Proof.
  intros Hx Hy Heq. unfold Go.byte in Heq.
  apply (f_equal N_of_ascii) in Heq.
  rewrite !N_ascii_embedding in Heq by lia. lia.
Qed.

(** The bytes of the encoding, in arithmetic. *)
Lemma utf8_bytes (r : Z) :
  (0 ≤ r ≤ 1114111)%Z →
  Go.utf8 r =
    if (r <? 128)%Z then String (Go.byte r) EmptyString
    else if (r <? 2048)%Z then
      String (Go.byte (192 + r / 64))
        (String (Go.byte (128 + r mod 64)) EmptyString)
    else if (r <? 65536)%Z then
      String (Go.byte (224 + r / 4096))
        (String (Go.byte (128 + (r / 64) mod 64))
           (String (Go.byte (128 + r mod 64)) EmptyString))
    else
      String (Go.byte (240 + r / 262144))
        (String (Go.byte (128 + (r / 4096) mod 64))
           (String (Go.byte (128 + (r / 64) mod 64))
              (String (Go.byte (128 + r mod 64)) EmptyString))).
Proof.
  intros Hr. unfold Go.utf8.
  rewrite !land_63, !Z.shiftr_div_pow2 by lia.
  change (2 ^ 6)%Z with 64%Z. change (2 ^ 12)%Z with 4096%Z.
  change (2 ^ 18)%Z with 262144%Z.
  pose proof (proj1 (lor_marker (r mod 64))) as H0.
  pose proof (proj1 (lor_marker ((r / 64) mod 64))) as H1.
  pose proof (proj1 (lor_marker ((r / 4096) mod 64))) as H2.
  rewrite H0, H1, H2 by (apply Z.mod_pos_bound; lia).
  destruct (Z.ltb_spec r 128); [done|].
  destruct (Z.ltb_spec r 2048).
  { destruct (lor_marker (r / 64)) as (_ & Hm & _). rewrite Hm; [done|].
    split; [apply Z.div_pos; lia | apply Z.div_lt_upper_bound; lia]. }
  destruct (Z.ltb_spec r 65536).
  { destruct (lor_marker (r / 4096)) as (_ & _ & Hm & _). rewrite Hm; [done|].
    split; [apply Z.div_pos; lia | apply Z.div_lt_upper_bound; lia]. }
  destruct (lor_marker (r / 262144)) as (_ & _ & _ & Hm). rewrite Hm; [done|].
  split; [apply Z.div_pos; lia | apply Z.div_lt_upper_bound; lia].
Qed.

(** UTF-8 encodes different code points differently. *)
Lemma utf8_inj (r1 r2 : Z) :
  (0 ≤ r1 ≤ 1114111)%Z → (0 ≤ r2 ≤ 1114111)%Z →
  Go.utf8 r1 = Go.utf8 r2 → r1 = r2.
Proof.
  intros H1 H2. rewrite !utf8_bytes by done.
  destruct (Z.ltb_spec r1 128), (Z.ltb_spec r1 2048), (Z.ltb_spec r1 65536),
    (Z.ltb_spec r2 128), (Z.ltb_spec r2 2048), (Z.ltb_spec r2 65536);
    try lia; intros Heq; try done; simplify_eq;
    repeat match goal with
           | H : Go.byte _ = Go.byte _ |- _ =>
               apply byte_inj in H; [|Z.div_mod_to_equations; lia..]
           end;
    Z.div_mod_to_equations; lia.
Qed.

Lemma string_of_rune_valid (r : Z) :
  validRune r → Go.string_of_rune r = Go.utf8 r.
Proof.
  intros [Hr Hs]. unfold Go.string_of_rune.
  replace (r <? 0)%Z with false by (symmetry; apply Z.ltb_ge; lia).
  replace (1114111 <? r)%Z with false by (symmetry; apply Z.ltb_ge; lia).
  simpl. destruct (Z.leb_spec 55296 r), (Z.leb_spec r 57343); simpl; try done.
  lia.
Qed.

Lemma string_of_rune_invalid (r : Z) :
  ¬ validRune r → Go.string_of_rune r = Go.utf8 Go.RuneError.
Proof.
  intros Hr. unfold Go.string_of_rune.
  destruct (Z.ltb_spec r 0); [done|].
  destruct (Z.ltb_spec 1114111 r); [done|]. simpl.
  destruct (Z.leb_spec 55296 r), (Z.leb_spec r 57343); simpl; try done;
    exfalso; apply Hr; split; lia.
Qed.

Lemma formatAmount_resolution_aux (a b : float) :
  (validRune (keyRune a) → validRune (keyRune b) →
   formatAmount a = formatAmount b ↔ keyRune a = keyRune b)
  ∧ (¬ validRune (keyRune a) → ¬ validRune (keyRune b) →
     formatAmount a = formatAmount b)
  ∧ (¬ validRune (keyRune a) → formatAmount a = Go.string_of_rune Go.RuneError).
Proof.
  unfold formatAmount. fold (keyRune a). fold (keyRune b). split_and!.
  - intros Ha Hb. split; [|by intros ->].
    rewrite !string_of_rune_valid by done.
    apply utf8_inj; [apply Ha | apply Hb].
  - intros Ha Hb. by rewrite !string_of_rune_invalid.
  - intros Ha. by rewrite string_of_rune_invalid.
Qed.

End rune_facts.



(** ** Buckets *)



(** The amount component of the key does not tell 20000.00 from 30000.00:
    [string(rune(n))] is the one-character string of code point [n], and
    U+FFFD for every [n] that is not a valid code point, whereas the comment
    of [generateKey] shows the decimal digits of the cents. *)
Example formatAmount_20000_30000 :
  formatAmount 20000 = formatAmount 30000
  ∧ generateKey exact
      (createBankTransaction "B1" "BCA" 20000 TransactionTypeCredit midnight)
    = generateKey exact
        (createBankTransaction "B2" "BCA" 30000 TransactionTypeCredit midnight).
Proof. by vm_compute. Qed.






(** ** Partition completeness, side by side *)

(** X1: every system transaction ends in exactly one of the two
    system-side partitions, for all inputs. *)
Theorem Match_partitions_system_side (em : ExactMatcher)
    (systemTxns bankTxns : list Transaction) :
  (SystemTransaction <$> Matched (Match em systemTxns bankTxns).1)
    ++ UnmatchedSystem (Match em systemTxns bankTxns).1 ≡ₚ systemTxns
  ∧ length (Matched (Match em systemTxns bankTxns).1)
    + length (UnmatchedSystem (Match em systemTxns bankTxns).1)
    = length systemTxns.
Proof. apply Match_system_partition. Qed.

(** X2: every bank transaction ends in exactly one of the two bank-side
    partitions when the bank transactions carry pairwise distinct IDs. *)
Theorem Match_partitions_bank_side (em : ExactMatcher)
    (systemTxns bankTxns : list Transaction) :
  NoDup (ID <$> bankTxns) →
  (BankTransaction <$> Matched (Match em systemTxns bankTxns).1)
    ++ UnmatchedBank (Match em systemTxns bankTxns).1 ≡ₚ bankTxns
  ∧ length (Matched (Match em systemTxns bankTxns).1)
    + length (UnmatchedBank (Match em systemTxns bankTxns).1)
    = length bankTxns.
Proof. apply Match_bank_partition. Qed.

Lemma Match_partitions_bank_side_witness :
  (BankTransaction <$> Matched (Match exact [rival_first; rival_second] ambiguous_bank).1)
    ++ UnmatchedBank (Match exact [rival_first; rival_second] ambiguous_bank).1
    ≡ₚ ambiguous_bank
  ∧ length (Matched (Match exact [rival_first; rival_second] ambiguous_bank).1)
    + length (UnmatchedBank (Match exact [rival_first; rival_second] ambiguous_bank).1)
    = length ambiguous_bank.
Proof.
  apply (Match_partitions_bank_side exact [rival_first; rival_second] ambiguous_bank).
  apply (bool_decide_unpack _). vm_compute. exact I.
Defined.

(** * Further properties of the code *)

(** ** The derived queries of a transaction *)

Lemma opp_involutive (a : float) : PrimFloat.opp (PrimFloat.opp a) = a.
Proof.
  apply Prim2SF_inj. rewrite !opp_spec.
  destruct (Prim2SF a); simpl; by rewrite ?negb_involutive.
Qed.

Lemma NormalizeAmount_AbsAmount (now : Go.Time) (t : Transaction) :
  AbsAmount (NormalizeAmount now t) = AbsAmount t.
Proof.
  unfold AbsAmount. rewrite NormalizeAmount_Amount.
  destruct (bool_decide (Type_ t = TransactionTypeDebit)
            && PrimFloat.ltb 0 (Amount t)) eqn:Hd.
  - apply andb_true_iff in Hd as [_ Hpos].
    by rewrite ltb_zero_r_opp, Hpos, opp_involutive,
         (ltb_zero_exclusive _ Hpos).
  - destruct (bool_decide (Type_ t = TransactionTypeCredit)
              && PrimFloat.ltb (Amount t) 0) eqn:Hc; [|done].
    apply andb_true_iff in Hc as [_ Hneg].
    rewrite ltb_zero_r_opp, Hneg.
    destruct (PrimFloat.ltb 0 (Amount t)) eqn:Hpos; [|done].
    apply ltb_zero_exclusive in Hpos. congruence.
Qed.

Lemma AbsAmount_sign (t : Transaction) :
  PrimFloat.ltb (AbsAmount t) 0 = false.
Proof.
  unfold AbsAmount. destruct (PrimFloat.ltb (Amount t) 0) eqn:Hneg; [|done].
  rewrite ltb_zero_r_opp.
  destruct (PrimFloat.ltb 0 (Amount t)) eqn:Hpos; [|done].
  apply ltb_zero_exclusive in Hpos. congruence.
Qed.

Lemma NormalizeAmount_IsDebit (now : Go.Time) (t : Transaction) :
  (Type_ t = TransactionTypeDebit → IsDebit (NormalizeAmount now t) = true)
  ∧ (Type_ t = TransactionTypeCredit → IsDebit (NormalizeAmount now t) = false)
  ∧ (Type_ t ≠ TransactionTypeDebit → Type_ t ≠ TransactionTypeCredit →
     Amount (NormalizeAmount now t) = Amount t
     ∧ IsDebit (NormalizeAmount now t) = PrimFloat.ltb (Amount t) 0).
Proof.
  unfold IsDebit. rewrite NormalizeAmount_Type, NormalizeAmount_Amount.
  split_and!.
  - intros Hty. by rewrite Hty.
  - intros Hty. rewrite Hty. simpl.
    destruct (PrimFloat.ltb (Amount t) 0) eqn:Hneg; [|done].
    rewrite ltb_zero_r_opp.
    destruct (PrimFloat.ltb 0 (Amount t)) eqn:Hpos; [|done].
    apply ltb_zero_exclusive in Hpos. congruence.
  - intros Hnd Hnc. by rewrite !bool_decide_eq_false_2.
Qed.

(** X3: [NormalizeAmount] changes the sign of the amount at most: the
    absolute amount of a transaction is the same before and after. *)
Theorem AbsAmount_NormalizeAmount (now : Go.Time) (t : Transaction) :
  AbsAmount (NormalizeAmount now t) = AbsAmount t.
Proof. apply NormalizeAmount_AbsAmount. Qed.

(** X4: [AbsAmount] is never negative, whatever the amount (an infinity,
    a signed zero and NaN included). *)
Theorem AbsAmount_never_negative (t : Transaction) :
  PrimFloat.ltb (AbsAmount t) 0 = false.
Proof. apply AbsAmount_sign. Qed.

(** X5: once [NormalizeAmount] has run, [IsDebit] is decided by the type
    alone for the two known types: a DEBIT is a debit and a CREDIT is not,
    whatever sign the amount carried before. For any other type string the
    amount is left as it was and [IsDebit] is the sign test. *)
Theorem IsDebit_NormalizeAmount (now : Go.Time) (t : Transaction) :
  (Type_ t = TransactionTypeDebit → IsDebit (NormalizeAmount now t) = true)
  ∧ (Type_ t = TransactionTypeCredit → IsDebit (NormalizeAmount now t) = false)
  ∧ (Type_ t ≠ TransactionTypeDebit → Type_ t ≠ TransactionTypeCredit →
     Amount (NormalizeAmount now t) = Amount t
     ∧ IsDebit (NormalizeAmount now t) = PrimFloat.ltb (Amount t) 0).
Proof. apply NormalizeAmount_IsDebit. Qed.

(** ** From rows to transactions *)

(** [NormalizeAmount] writes the amount and the update time only. *)
Lemma NormalizeAmount_fields (now : Go.Time) (t : Transaction) :
  ID (NormalizeAmount now t) = ID t
  ∧ TransactionDate (NormalizeAmount now t) = TransactionDate t
  ∧ Source (NormalizeAmount now t) = Source t
  ∧ SourceType (NormalizeAmount now t) = SourceType t
  ∧ transaction.Matched (NormalizeAmount now t) = transaction.Matched t.
Proof. unfold NormalizeAmount. by repeat case_match. Qed.

(** For the two known types, the amount of a normalized transaction is on
    the side of zero its polarity names. *)
Lemma NormalizeAmount_polarity_sign (now : Go.Time) (t : Transaction) :
  Type_ t = TransactionTypeDebit ∨ Type_ t = TransactionTypeCredit →
  PrimFloat.ltb (if IsDebit (NormalizeAmount now t)
                 then PrimFloat.opp (Amount (NormalizeAmount now t))
                 else Amount (NormalizeAmount now t)) 0 = false.
Proof.
  destruct (NormalizeAmount_IsDebit now t) as (HD & HC & _).
  intros [Hty|Hty].
  - rewrite (HD Hty), ltb_zero_r_opp, NormalizeAmount_Amount, Hty. simpl.
    destruct (PrimFloat.ltb 0 (Amount t)) eqn:Hpos; [|done].
    by rewrite ltb_zero_l_opp, (ltb_zero_exclusive _ Hpos).
  - rewrite (HC Hty), NormalizeAmount_Amount, Hty. simpl.
    destruct (PrimFloat.ltb (Amount t) 0) eqn:Hneg; [|done].
    rewrite ltb_zero_r_opp.
    destruct (PrimFloat.ltb 0 (Amount t)) eqn:Hpos; [|done].
    apply ltb_zero_exclusive in Hpos. congruence.
Qed.

Section parser_facts.
Context (ParseFloat : string → option float)
        (time_Parse : string → string → option Go.Time)
        (ToUpper : string → string) (now now' : Go.Time).

Lemma typeStr_NormalizeAmount (t : Transaction) :
  Type_ t = TransactionTypeDebit ∨ Type_ t = TransactionTypeCredit →
  report.typeStr (NormalizeAmount now' t)
  = if IsDebit (NormalizeAmount now' t) then "DEBIT"%string else "CREDIT"%string.
Proof.
  destruct (NormalizeAmount_IsDebit now' t) as (Hd & Hc & _).
  unfold report.typeStr. rewrite NormalizeAmount_Type.
  intros [Hty|Hty].
  - rewrite (Hd Hty), Hty. done.
  - rewrite (Hc Hty), Hty. done.
Qed.

(** A bank row keeps its amount: the type is read off the sign, so
    [NormalizeAmount] finds nothing to flip. *)
Lemma bank_amount_kept (t : Transaction) :
  Type_ t = (if PrimFloat.ltb (Amount t) 0 then TransactionTypeDebit
             else TransactionTypeCredit) →
  Amount (NormalizeAmount now' t) = Amount t.
Proof.
  intros Hty. rewrite NormalizeAmount_Amount, Hty.
  destruct (PrimFloat.ltb (Amount t) 0) eqn:Hneg; simpl; [|done].
  destruct (PrimFloat.ltb 0 (Amount t)) eqn:Hpos; [|done].
  apply ltb_zero_exclusive in Hpos. congruence.
Qed.

Lemma ParseBankTransaction_outcome_aux (row : csv.BankStatementRow.t)
    (jobID fileID bankSource : string) :
  match ParseFloat (csv.BankStatementRow.Amount row),
        csv.parseDate time_Parse (csv.BankStatementRow.Date row) with
  | None, _ =>
      csv.ParseBankTransaction ParseFloat time_Parse ToUpper now now'
        row jobID fileID bankSource
      = csv.Err (csv.InvalidAmount (csv.BankStatementRow.Amount row))
  | Some _, None =>
      csv.ParseBankTransaction ParseFloat time_Parse ToUpper now now'
        row jobID fileID bankSource
      = csv.Err (csv.InvalidDate (csv.BankStatementRow.Date row))
  | Some amount, Some date =>
      ∃ txn,
        csv.ParseBankTransaction ParseFloat time_Parse ToUpper now now'
          row jobID fileID bankSource = csv.Ok txn
        ∧ Amount txn = amount
        ∧ Type_ txn = (if PrimFloat.ltb amount 0 then TransactionTypeDebit
                       else TransactionTypeCredit)
        ∧ IsDebit txn = PrimFloat.ltb amount 0
        ∧ ID txn = csv.BankStatementRow.UniqueIdentifier row
        ∧ TransactionDate txn = date
        ∧ Source txn = ToUpper bankSource
        ∧ SourceType txn = SourceTypeBank
        ∧ transaction.Matched txn = false
  end.
Proof.
  unfold csv.ParseBankTransaction.
  destruct (ParseFloat _) as [amount|]; [|done].
  destruct (csv.parseDate _ _) as [date|]; [|done].
  eexists. split; [done|].
  set (t := csv.set_RawData _ _).
  assert (Type_ t = (if PrimFloat.ltb (Amount t) 0 then TransactionTypeDebit
                     else TransactionTypeCredit)) as Hty by done.
  assert (Amount (NormalizeAmount now' t) = amount) as Ha
    by by rewrite bank_amount_kept.
  destruct (NormalizeAmount_fields now' t) as (-> & -> & -> & -> & ->).
  split_and!; try done.
  - by rewrite NormalizeAmount_Type.
  - unfold IsDebit. rewrite Ha, NormalizeAmount_Type, Hty. simpl.
    by destruct (PrimFloat.ltb amount 0).
Qed.

Lemma ParseSystemTransaction_outcome_aux (row : csv.SystemTransactionRow.t)
    (jobID fileID : string) :
  match ParseFloat (csv.SystemTransactionRow.Amount row) with
  | None =>
      csv.ParseSystemTransaction ParseFloat time_Parse ToUpper now now'
        row jobID fileID
      = csv.Err (csv.InvalidAmount (csv.SystemTransactionRow.Amount row))
  | Some amount =>
      let upper := ToUpper (csv.SystemTransactionRow.Type_ row) in
      if bool_decide (upper ≠ "DEBIT"%string ∧ upper ≠ "CREDIT"%string) then
        csv.ParseSystemTransaction ParseFloat time_Parse ToUpper now now'
          row jobID fileID
        = csv.Err (csv.InvalidType (csv.SystemTransactionRow.Type_ row))
      else
        match time_Parse csv.RFC3339 (csv.SystemTransactionRow.TransactionTime row) with
        | None =>
            csv.ParseSystemTransaction ParseFloat time_Parse ToUpper now now'
              row jobID fileID
            = csv.Err (csv.InvalidTime
                         (csv.SystemTransactionRow.TransactionTime row))
        | Some time =>
            ∃ txn,
              csv.ParseSystemTransaction ParseFloat time_Parse ToUpper now now'
                row jobID fileID = csv.Ok txn
              ∧ Type_ txn = (if bool_decide (upper = "DEBIT"%string)
                             then TransactionTypeDebit else TransactionTypeCredit)
              ∧ IsDebit txn = bool_decide (upper = "DEBIT"%string)
              ∧ AbsAmount txn = (if PrimFloat.ltb amount 0
                                 then PrimFloat.opp amount else amount)
              ∧ PrimFloat.ltb (if IsDebit txn then PrimFloat.opp (Amount txn)
                               else Amount txn) 0 = false
              ∧ ID txn = csv.SystemTransactionRow.TrxID row
              ∧ TransactionDate txn = time
              ∧ Source txn = ToUpper (csv.SystemTransactionRow.Source row)
              ∧ SourceType txn = SourceTypeSystem
              ∧ transaction.Matched txn = false
        end
  end.
Proof.
  unfold csv.ParseSystemTransaction.
  destruct (ParseFloat _) as [amount|]; [|done].
  cbv zeta.
  destruct (decide (ToUpper (csv.SystemTransactionRow.Type_ row) = "DEBIT"%string))
    as [Hd|Hd];
  destruct (decide (ToUpper (csv.SystemTransactionRow.Type_ row) = "CREDIT"%string))
    as [Hc|Hc]; try congruence.
  - rewrite (bool_decide_eq_true_2 _ Hd).
    rewrite bool_decide_eq_false_2 by (intros [? _]; done).
    destruct (time_Parse _ _) as [time|]; [|done].
    eexists. split; [done|]. set (t := csv.set_RawData _ _).
    assert (Type_ t = TransactionTypeDebit) as Hty by done.
    pose proof (NormalizeAmount_polarity_sign now' t (or_introl Hty)) as Hsign.
    destruct (NormalizeAmount_IsDebit now' t) as (HD & _ & _).
    rewrite (HD Hty) in Hsign |- *.
    rewrite NormalizeAmount_AbsAmount, NormalizeAmount_Type.
    destruct (NormalizeAmount_fields now' t) as (-> & -> & -> & -> & ->).
    by split_and!.
  - rewrite (bool_decide_eq_false_2 _ Hd), (bool_decide_eq_true_2 _ Hc).
    rewrite bool_decide_eq_false_2 by (intros [_ ?]; done). simpl.
    destruct (time_Parse _ _) as [time|]; [|done].
    eexists. split; [done|]. set (t := csv.set_RawData _ _).
    assert (Type_ t = TransactionTypeCredit) as Hty by done.
    pose proof (NormalizeAmount_polarity_sign now' t (or_intror Hty)) as Hsign.
    destruct (NormalizeAmount_IsDebit now' t) as (_ & HC & _).
    rewrite (HC Hty) in Hsign |- *.
    rewrite NormalizeAmount_AbsAmount, NormalizeAmount_Type.
    destruct (NormalizeAmount_fields now' t) as (-> & -> & -> & -> & ->).
    by split_and!.
  - rewrite (bool_decide_eq_false_2 _ Hd), (bool_decide_eq_false_2 _ Hc).
    by rewrite bool_decide_eq_true_2.
Qed.

End parser_facts.

(** X6: [ParseBankTransaction] fails on an unparsable amount, else on an
    unparsable date, and otherwise returns a transaction that carries the
    parsed amount unchanged, with type DEBIT exactly when the amount is
    negative (a zero, NaN or positive amount is a CREDIT), the row's
    identifier, the parsed date and the upper-cased bank source. *)
Theorem ParseBankTransaction_outcome
    (ParseFloat : string → option float)
    (time_Parse : string → string → option Go.Time)
    (ToUpper : string → string) (now now' : Go.Time)
    (row : csv.BankStatementRow.t) (jobID fileID bankSource : string) :
  match ParseFloat (csv.BankStatementRow.Amount row),
        csv.parseDate time_Parse (csv.BankStatementRow.Date row) with
  | None, _ =>
      csv.ParseBankTransaction ParseFloat time_Parse ToUpper now now'
        row jobID fileID bankSource
      = csv.Err (csv.InvalidAmount (csv.BankStatementRow.Amount row))
  | Some _, None =>
      csv.ParseBankTransaction ParseFloat time_Parse ToUpper now now'
        row jobID fileID bankSource
      = csv.Err (csv.InvalidDate (csv.BankStatementRow.Date row))
  | Some amount, Some date =>
      ∃ txn,
        csv.ParseBankTransaction ParseFloat time_Parse ToUpper now now'
          row jobID fileID bankSource = csv.Ok txn
        ∧ Amount txn = amount
        ∧ Type_ txn = (if PrimFloat.ltb amount 0 then TransactionTypeDebit
                       else TransactionTypeCredit)
        ∧ IsDebit txn = PrimFloat.ltb amount 0
        ∧ ID txn = csv.BankStatementRow.UniqueIdentifier row
        ∧ TransactionDate txn = date
        ∧ Source txn = ToUpper bankSource
        ∧ SourceType txn = SourceTypeBank
        ∧ transaction.Matched txn = false
  end.
Proof. apply ParseBankTransaction_outcome_aux. Qed.

(** X7: [ParseSystemTransaction] fails on an unparsable amount, else on a
    type that is neither DEBIT nor CREDIT once upper-cased, else on an
    unparsable time. Otherwise the transaction has the type the row names,
    [IsDebit] says the same, its absolute amount is that of the parsed
    amount, and its amount is not positive for a DEBIT and not negative for
    a CREDIT. *)
Theorem ParseSystemTransaction_outcome
    (ParseFloat : string → option float)
    (time_Parse : string → string → option Go.Time)
    (ToUpper : string → string) (now now' : Go.Time)
    (row : csv.SystemTransactionRow.t) (jobID fileID : string) :
  match ParseFloat (csv.SystemTransactionRow.Amount row) with
  | None =>
      csv.ParseSystemTransaction ParseFloat time_Parse ToUpper now now'
        row jobID fileID
      = csv.Err (csv.InvalidAmount (csv.SystemTransactionRow.Amount row))
  | Some amount =>
      let upper := ToUpper (csv.SystemTransactionRow.Type_ row) in
      if bool_decide (upper ≠ "DEBIT"%string ∧ upper ≠ "CREDIT"%string) then
        csv.ParseSystemTransaction ParseFloat time_Parse ToUpper now now'
          row jobID fileID
        = csv.Err (csv.InvalidType (csv.SystemTransactionRow.Type_ row))
      else
        match time_Parse csv.RFC3339 (csv.SystemTransactionRow.TransactionTime row) with
        | None =>
            csv.ParseSystemTransaction ParseFloat time_Parse ToUpper now now'
              row jobID fileID
            = csv.Err (csv.InvalidTime
                         (csv.SystemTransactionRow.TransactionTime row))
        | Some time =>
            ∃ txn,
              csv.ParseSystemTransaction ParseFloat time_Parse ToUpper now now'
                row jobID fileID = csv.Ok txn
              ∧ Type_ txn = (if bool_decide (upper = "DEBIT"%string)
                             then TransactionTypeDebit else TransactionTypeCredit)
              ∧ IsDebit txn = bool_decide (upper = "DEBIT"%string)
              ∧ AbsAmount txn = (if PrimFloat.ltb amount 0
                                 then PrimFloat.opp amount else amount)
              ∧ PrimFloat.ltb (if IsDebit txn then PrimFloat.opp (Amount txn)
                               else Amount txn) 0 = false
              ∧ ID txn = csv.SystemTransactionRow.TrxID row
              ∧ TransactionDate txn = time
              ∧ Source txn = ToUpper (csv.SystemTransactionRow.Source row)
              ∧ SourceType txn = SourceTypeSystem
              ∧ transaction.Matched txn = false
        end
  end.
Proof. apply ParseSystemTransaction_outcome_aux. Qed.

(** Both parsers return normalized transactions of a known type. *)
Lemma parsed_known_type
    (ParseFloat : string → option float)
    (time_Parse : string → string → option Go.Time)
    (ToUpper : string → string) (now now' : Go.Time)
    (sysRow : csv.SystemTransactionRow.t) (bankRow : csv.BankStatementRow.t)
    (jobID fileID bankSource : string) (txn : Transaction) :
  csv.ParseSystemTransaction ParseFloat time_Parse ToUpper now now'
    sysRow jobID fileID = csv.Ok txn
  ∨ csv.ParseBankTransaction ParseFloat time_Parse ToUpper now now'
      bankRow jobID fileID bankSource = csv.Ok txn →
  ∃ t, txn = NormalizeAmount now' t
       ∧ (Type_ t = TransactionTypeDebit ∨ Type_ t = TransactionTypeCredit).
Proof.
  unfold csv.ParseSystemTransaction, csv.ParseBankTransaction.
  intros [H|H]; repeat case_match; try done;
    injection H as <-; eexists; (split; [done|]); simpl; simplify_eq; auto.
Qed.

(** X8: for every transaction either parser returns, the type column of
    the report and the polarity the matcher uses agree: the report prints
    DEBIT exactly when [IsDebit] holds. *)
Theorem parsed_typeStr_IsDebit
    (ParseFloat : string → option float)
    (time_Parse : string → string → option Go.Time)
    (ToUpper : string → string) (now now' : Go.Time)
    (sysRow : csv.SystemTransactionRow.t) (bankRow : csv.BankStatementRow.t)
    (jobID fileID bankSource : string) (txn : Transaction) :
  csv.ParseSystemTransaction ParseFloat time_Parse ToUpper now now'
    sysRow jobID fileID = csv.Ok txn
  ∨ csv.ParseBankTransaction ParseFloat time_Parse ToUpper now now'
      bankRow jobID fileID bankSource = csv.Ok txn →
  report.typeStr txn = if IsDebit txn then "DEBIT"%string else "CREDIT"%string.
Proof.
  intros (t & -> & Hty)%parsed_known_type.
  by apply typeStr_NormalizeAmount.
Qed.

Lemma parsed_typeStr_IsDebit_witness :
  ∃ txn,
    csv.ParseBankTransaction sampleParseFloat sampleParse sampleToUpper
      noon noon sampleBankRow "cli-job" "bank-file" "bca" = csv.Ok txn
    ∧ report.typeStr txn = if IsDebit txn then "DEBIT"%string else "CREDIT"%string.
Proof.
  eexists. split; [vm_compute; reflexivity|].
  apply (parsed_typeStr_IsDebit sampleParseFloat sampleParse sampleToUpper
           noon noon sampleSystemRow sampleBankRow "cli-job" "bank-file" "bca").
  right. vm_compute. reflexivity.
Defined.

(** ** More on [Match] *)

Section match_facts.
Context (em : ExactMatcher).

(** With no bank transactions every system transaction is unmatched, in
    input order; with no system transactions every bank transaction is. *)
Lemma Match_empty_side :
  (∀ systemTxns,
     Matched (Match em systemTxns []).1 = []
     ∧ UnmatchedSystem (Match em systemTxns []).1 = systemTxns
     ∧ UnmatchedBank (Match em systemTxns []).1 = [])
  ∧ (∀ bankTxns,
       Matched (Match em [] bankTxns).1 = []
       ∧ UnmatchedSystem (Match em [] bankTxns).1 = []
       ∧ UnmatchedBank (Match em [] bankTxns).1 = bankTxns).
Proof.
  split.
  - intros systemTxns.
    rewrite Match_Matched, Match_UnmatchedSystem, Match_UnmatchedBank.
    rewrite (inv_bank_empty _ _ _ _ (runSystemLoop_invariant em systemTxns [])).
    rewrite filter_nil.
    enough (Matched (result (runSystemLoop em systemTxns [])) = []
            ∧ UnmatchedSystem (result (runSystemLoop em systemTxns [])) = systemTxns)
      as [-> ->] by done.
    apply (runSystemLoop_ind em []
             (λ done_ st, Matched (result st) = []
                          ∧ UnmatchedSystem (result st) = done_)).
    + done.
    + intros done_ s st [HM HU] _. simpl. by rewrite HM, HU.
    + intros done_ s st b _ Hb _. unfold bucket in Hb.
      by rewrite !filter_nil in Hb.
  - intros bankTxns.
    rewrite Match_Matched, Match_UnmatchedSystem, Match_UnmatchedBank.
    rewrite runSystemLoop_nil. simpl. split_and!; try done.
    apply filter_all. intros b _. unfold unmarked, isMatched.
    by rewrite lookup_empty.
Qed.

(** The three partitions keep the order of the input. *)
Lemma Match_sublists (systemTxns bankTxns : list Transaction) :
  (SystemTransaction <$> Matched (Match em systemTxns bankTxns).1)
    `sublist_of` systemTxns
  ∧ UnmatchedSystem (Match em systemTxns bankTxns).1 `sublist_of` systemTxns
  ∧ UnmatchedBank (Match em systemTxns bankTxns).1 `sublist_of` bankTxns.
Proof.
  rewrite Match_Matched, Match_UnmatchedSystem, Match_UnmatchedBank.
  rewrite (inv_bank_empty _ _ _ _ (runSystemLoop_invariant em systemTxns bankTxns)).
  simpl.
  enough ((SystemTransaction <$> Matched (result (runSystemLoop em systemTxns bankTxns)))
            `sublist_of` systemTxns
          ∧ UnmatchedSystem (result (runSystemLoop em systemTxns bankTxns))
              `sublist_of` systemTxns) as [? ?]
    by (split_and!; try done; apply sublist_filter).
  apply (runSystemLoop_ind em bankTxns
           (λ done_ st,
              (SystemTransaction <$> Matched (result st)) `sublist_of` done_
              ∧ UnmatchedSystem (result st) `sublist_of` done_)).
  - done.
  - intros done_ s st [HM HU] _. simpl. split.
    + by apply sublist_inserts_r.
    + by apply sublist_app.
  - intros done_ s st b [HM HU] _ _. simpl. split.
    + rewrite fmap_app. by apply sublist_app.
    + by apply sublist_inserts_r.
Qed.

(** Which bank transactions are paired, when bank IDs are pairwise
    distinct: the claimable ones. *)
Lemma Match_paired_claimable (systemTxns bankTxns : list Transaction)
    (b : Transaction) :
  NoDup (ID <$> bankTxns) → b ∈ bankTxns →
  b ∈ BankTransaction <$> Matched (Match em systemTxns bankTxns).1
  ↔ claimable em bankTxns systemTxns b.
Proof.
  intros Hids Hb. rewrite Match_Matched.
  destruct (runSystemLoop_invariant em systemTxns bankTxns)
    as [_ _ Hmarks _ Hpairs].
  rewrite Forall_forall in Hpairs.
  pose proof (marks_claimable em systemTxns bankTxns Hids (ID b)) as Hc.
  rewrite Hmarks in Hc. unfold bankIDs in Hc. split.
  - intros (p & -> & Hp)%list_elem_of_fmap.
    destruct Hc as [Hc _].
    destruct Hc as (b' & Hid & Hb'); [apply list_elem_of_fmap; by exists p|].
    assert (b' = BankTransaction p) as ->; [|done].
    destruct Hb' as (Hb'in & _).
    by eapply (NoDup_fmap_elem_inj ID bankTxns).
  - intros Hcl. destruct Hc as [_ Hc].
    assert (ID b ∈ (λ p, ID (BankTransaction p))
                     <$> Matched (result (runSystemLoop em systemTxns bankTxns)))
      as (p & Hid & Hp)%list_elem_of_fmap by (apply Hc; by exists b).
    apply list_elem_of_fmap. exists p. split; [|done].
    destruct (Hpairs p Hp) as (Hpb & _).
    by eapply (NoDup_fmap_elem_inj ID bankTxns).
Qed.

(** A system transaction whose key no bank transaction has is unmatched. *)
Lemma Match_no_candidate (systemTxns bankTxns : list Transaction)
    (s : Transaction) :
  s ∈ systemTxns →
  (∀ b, b ∈ bankTxns → generateKey em b ≠ generateKey em s) →
  s ∈ UnmatchedSystem (Match em systemTxns bankTxns).1
  ∧ s ∉ SystemTransaction <$> Matched (Match em systemTxns bankTxns).1.
Proof.
  intros Hs Hnone.
  rewrite Match_Matched, Match_UnmatchedSystem.
  destruct (runSystemLoop_invariant em systemTxns bankTxns)
    as [Hsys _ _ _ Hpairs].
  rewrite Forall_forall in Hpairs.
  assert (s ∉ SystemTransaction
                <$> Matched (result (runSystemLoop em systemTxns bankTxns)))
    as Hnot.
  { intros (p & -> & Hp)%list_elem_of_fmap.
    destruct (Hpairs p Hp) as (Hpb & Hkey & _). by eapply Hnone. }
  split; [|done].
  rewrite <- Hsys in Hs. by apply elem_of_app in Hs as [Hs|Hs].
Qed.

End match_facts.

(** The matcher never reads its configuration: every function of
    [ExactMatcher] gives the same result for any two matchers. *)
Lemma tryCandidates_any_matcher (em em' : ExactMatcher) (s : Transaction)
    (avail : list Transaction) (st : MatchState) :
  tryCandidates em s avail st = tryCandidates em' s avail st.
Proof.
  induction avail as [|b avail IH]; simpl; [done|]. by rewrite IH.
Qed.

Lemma Match_any_matcher (em em' : ExactMatcher)
    (systemTxns bankTxns : list Transaction) :
  Match em systemTxns bankTxns = Match em' systemTxns bankTxns.
Proof.
  unfold Match, runSystemLoop.
  assert (buildBankTxnMap em bankTxns = buildBankTxnMap em' bankTxns) as ->
    by by apply foldl_ext.
  assert (∀ st s, matchSystemTxn em (buildBankTxnMap em' bankTxns) st s
                  = matchSystemTxn em' (buildBankTxnMap em' bankTxns) st s) as Hstep.
  { intros st s. unfold matchSystemTxn.
    change (generateKey em s) with (generateKey em' s).
    destruct (buildBankTxnMap em' bankTxns !! generateKey em' s) as [c|];
      [|done].
    destruct (negb true || _); [done|]. destruct (1 <? _)%Z; [done|].
    by rewrite (tryCandidates_any_matcher em em'). }
  by rewrite (foldl_ext _ _ systemTxns _ Hstep).
Qed.

(** ** binary64 facts behind the statistics and the report *)

Section rounding_facts.

(** Rounding keeps the sign it is given. *)
Lemma binary_round_sign (s : bool) (m : positive) (e : Z) :
  binary_round prec emax s m e = S754_zero s
  ∨ binary_round prec emax s m e = S754_infinity s
  ∨ binary_round prec emax s m e = S754_nan
  ∨ ∃ m' e', binary_round prec emax s m e = S754_finite s m' e'.
Proof.
  unfold binary_round, binary_round_aux.
  destruct (shl_align _ _ _) as [mz ez].
  destruct (shr_fexp _ _ _ _ _) as [mrs' e'].
  destruct (shr_fexp _ _ _ _ _) as [mrs'' e''].
  destruct (shr_m mrs'') as [|p|p]; auto.
  destruct (_ <=? _)%Z; eauto 6.
Qed.

Lemma SFabs_binary_round (s s' : bool) (m : positive) (e : Z) :
  SFabs (binary_round prec emax s m e) = SFabs (binary_round prec emax s' m e).
Proof.
  unfold binary_round, binary_round_aux.
  destruct (shl_align _ _ _) as [mz ez].
  destruct (shr_fexp _ _ _ _ _) as [mrs' e'].
  destruct (shr_fexp _ _ _ _ _) as [mrs'' e''].
  destruct (shr_m mrs'') as [|p|p]; try done.
  by destruct (_ <=? _)%Z.
Qed.

Lemma SFabs_binary_normalize_opp (m e : Z) :
  SFabs (binary_normalize prec emax (- m) e false)
  = SFabs (binary_normalize prec emax m e false).
Proof.
  destruct m as [|p|p]; simpl; [done| |]; apply SFabs_binary_round.
Qed.

(** The sum of two numbers that are not negative is not negative. *)
Lemma add_not_negative (x y : float) :
  PrimFloat.ltb x 0 = false → PrimFloat.ltb y 0 = false →
  PrimFloat.ltb (PrimFloat.add x y) 0 = false.
Proof.
  rewrite !ltb_zero_r, add_spec. unfold SF64add.
  destruct (Prim2SF x) as [sx|sx| |sx mx ex], (Prim2SF y) as [sy|sy| |sy my ey];
    simpl; intros Hx Hy; subst; try done.
  - by destruct sx, sy.
  - simpl.
    destruct (binary_round_sign false
                ((shl_align mx ex (ex `min` ey)%Z).1
                 + (shl_align my ey (ex `min` ey)%Z).1)%positive
                (ex `min` ey)%Z) as [->|[->|[->|(m' & e' & ->)]]]; done.
Qed.

(** The distance of two amounts does not depend on their order. *)
Lemma abs_sub_comm (a b : float) :
  PrimFloat.abs (PrimFloat.sub a b) = PrimFloat.abs (PrimFloat.sub b a).
Proof.
  apply Prim2SF_inj. rewrite !abs_spec, !sub_spec. unfold SF64sub.
  destruct (Prim2SF a) as [sa|sa| |sa ma ea], (Prim2SF b) as [sb|sb| |sb mb eb];
    simpl; try done; try (by destruct sa, sb).
  rewrite (Z.min_comm eb ea).
  set (x := cond_Zopp sa _). set (y := cond_Zopp sb _).
  replace (y - x)%Z with (- (x - y))%Z by lia.
  by rewrite SFabs_binary_normalize_opp.
Qed.

(** [<] on binary64 is asymmetric. *)
Lemma ltb_asym (a b : float) :
  PrimFloat.ltb a b = true → PrimFloat.ltb b a = false.
Proof.
  rewrite !ltb_spec. unfold SFltb, SFcompare.
  destruct (Prim2SF a) as [sa|sa| |sa ma ea], (Prim2SF b) as [sb|sb| |sb mb eb];
    try done; try (by destruct sa); try (by destruct sb);
    try (by destruct sa, sb).
  rewrite (Z.compare_antisym ea eb).
  pose proof (Pos.compare_cont_antisym ma mb Eq) as Hm. simpl in Hm.
  rewrite <- Hm.
  destruct sa, sb; try done; destruct (ea ?= eb)%Z; simpl; try done;
    by destruct (Pos.compare_cont Eq ma mb).
Qed.

End rounding_facts.

(** ** The exact-match predicate *)

Lemma amountsEqual_comm (a b : float) : amountsEqual a b = amountsEqual b a.
Proof. unfold amountsEqual, Go.math_Abs. by rewrite abs_sub_comm. Qed.

Lemma isSameDay_comm (t1 t2 : Go.Time) : isSameDay t1 t2 = isSameDay t2 t1.
Proof.
  unfold isSameDay, Go.Date.
  by rewrite (Z.eqb_sym (Go.Year t1)), (Z.eqb_sym (Go.Month t1)),
       (Z.eqb_sym (Go.Day t1)).
Qed.

Lemma isExactMatch_comm (em : ExactMatcher) (t1 t2 : Transaction) :
  isExactMatch em t1 t2 = isExactMatch em t2 t1
  ∧ calculateDiscrepancy em t1 t2 = calculateDiscrepancy em t2 t1.
Proof.
  unfold isExactMatch, calculateDiscrepancy, Go.math_Abs.
  rewrite (isSameDay_comm (TransactionDate t1)),
    (amountsEqual_comm (AbsAmount t1)), (abs_sub_comm (AbsAmount t1)).
  split; [|done]. by destruct (IsDebit t1), (IsDebit t2).
Qed.

(** A finite amount is equal to itself for [amountsEqual]. *)
Lemma amountsEqual_refl_finite (a : float) :
  PrimFloat.ltb 0 a = true → PrimFloat.ltb a infinity = true →
  amountsEqual a a = true.
Proof.
  unfold amountsEqual, Go.math_Abs.
  rewrite ltb_zero_l, !ltb_spec, abs_spec, sub_spec. unfold SF64sub.
  destruct (Prim2SF a) as [s|s| |s m e]; try done.
  - by destruct s.
  - intros _ _. simpl.
    set (x := cond_Zopp s _). by replace (x - x)%Z with 0%Z by lia.
Qed.

(** ** The statistics and the report on a result of [Match] *)

Section result_facts.
Context (em : ExactMatcher) (systemTxns bankTxns : list Transaction).

Lemma Match_pairs_shape :
  Forall (λ p, AmountDiscrepancy p
               = PrimFloat.abs (PrimFloat.sub (AbsAmount (SystemTransaction p))
                                              (AbsAmount (BankTransaction p)))
               ∧ PrimFloat.ltb (AmountDiscrepancy p) epsilon = true)
    (Matched (Match em systemTxns bankTxns).1).
Proof.
  rewrite Match_Matched.
  eapply Forall_impl;
    [apply (inv_pairs _ _ _ _ (runSystemLoop_invariant em systemTxns bankTxns))|].
  intros [s b c d]; simpl.
  intros (_ & _ & (_ & _ & Hamt)%isExactMatch_true & Hp).
  unfold exactPair in Hp; simpl in Hp. by injection Hp as -> ->.
Qed.

Lemma abs_not_negative (x : float) : PrimFloat.ltb (PrimFloat.abs x) 0 = false.
Proof. rewrite ltb_zero_r, abs_spec. by destruct (Prim2SF x). Qed.

Lemma foldl_add_not_negative {A} (f : A → float) (l : list A) (d : float) :
  PrimFloat.ltb d 0 = false →
  Forall (λ x, PrimFloat.ltb (f x) 0 = false) l →
  PrimFloat.ltb (foldl (λ acc x, PrimFloat.add acc (f x)) d l) 0 = false.
Proof.
  intros Hd Hl. revert d Hd.
  induction Hl as [|x l Hx Hl IH]; intros d Hd; simpl; [done|].
  apply IH. by apply add_not_negative.
Qed.

Lemma Match_TotalDiscrepancy_sign :
  PrimFloat.ltb (TotalDiscrepancy (Match em systemTxns bankTxns).1) 0 = false.
Proof.
  unfold Match, Finalize. cbn [fst TotalDiscrepancy].
  apply foldl_add_not_negative; [|apply Forall_forall; intros; apply AbsAmount_sign].
  apply foldl_add_not_negative; [|apply Forall_forall; intros; apply AbsAmount_sign].
  apply (foldl_add_not_negative AmountDiscrepancy); [done|].
  pose proof Match_pairs_shape as Hp. rewrite Match_Matched in Hp.
  rewrite collectUnmatchedBank_Matched.
  eapply Forall_impl; [exact Hp|]. intros p [-> _]. apply abs_not_negative.
Qed.

Lemma anyDiscrepancy_false (pairs : list MatchPair) :
  Forall (λ p, PrimFloat.ltb (AmountDiscrepancy p) epsilon = true) pairs →
  report.anyDiscrepancy pairs = false
  ∧ foldl (λ out p, if PrimFloat.ltb 0.001 (AmountDiscrepancy p)
                    then out ++ [p] else out) [] pairs = [].
Proof.
  induction 1 as [|p l Hp Hl [IH1 IH2]]; simpl; [done|].
  unfold epsilon in Hp. by rewrite (ltb_asym _ _ Hp).
Qed.

Lemma Match_report_discrepancies :
  report.hasDiscrepancies (Match em systemTxns bankTxns).1 = false
  ∧ report.listedDiscrepancies (Match em systemTxns bankTxns).1 = [].
Proof.
  assert (report.hasDiscrepancies (Match em systemTxns bankTxns).1 = false) as H.
  { unfold report.hasDiscrepancies. destruct (0 <? _)%Z; [|done].
    apply anyDiscrepancy_false.
    eapply Forall_impl; [apply Match_pairs_shape|]. by intros p [_ ?]. }
  split; [done|]. unfold report.listedDiscrepancies. by rewrite H.
Qed.

End result_facts.

(** A system and a bank transaction with the same key that pass
    [isExactMatch], alone on their sides, are paired. *)
Lemma Match_single_pair (em : ExactMatcher) (s b : Transaction) :
  generateKey em b = generateKey em s → isExactMatch em s b = true →
  Matched (Match em [s] [b]).1 = [exactPair em s b]
  ∧ UnmatchedSystem (Match em [s] [b]).1 = []
  ∧ UnmatchedBank (Match em [s] [b]).1 = [].
Proof.
  intros Hkey Hex.
  rewrite Match_Matched, Match_UnmatchedSystem, Match_UnmatchedBank.
  assert (runSystemLoop em [s] [b]
          = markMatched em (runSystemLoop em [] [b]) s b) as ->.
  { change [s] with ([] ++ [s]). rewrite runSystemLoop_snoc, matchSystemTxn_bucket.
    unfold bucket. rewrite filter_cons_True, filter_nil by done.
    rewrite filter_cons_True, filter_nil by done. by rewrite Hex. }
  simpl. split_and!; try done.
  rewrite filter_cons_False, filter_nil; [done|].
  unfold unmarked, isMatched. by rewrite lookup_insert_eq.
Qed.

(** ** From two rows to a pair *)

(** X9: the two sign conventions reconcile. A system row with a positive
    finite amount and a bank row of the same calendar day whose amount is
    the negated amount for a DEBIT, and the same amount for a CREDIT, parse
    to two transactions that [Match] pairs, with discrepancy 0 and nothing
    left unmatched. *)
Theorem opposite_sign_conventions_reconcile
    (ParseFloat : string → option float)
    (time_Parse : string → string → option Go.Time)
    (ToUpper : string → string) (now now' : Go.Time) (em : ExactMatcher)
    (sysRow : csv.SystemTransactionRow.t) (bankRow : csv.BankStatementRow.t)
    (jobID fileID jobID' fileID' bankSource : string)
    (debit : bool) (a : float) (t1 t2 : Go.Time) :
  PrimFloat.ltb 0 a = true → PrimFloat.ltb a infinity = true →
  ParseFloat (csv.SystemTransactionRow.Amount sysRow) = Some a →
  ToUpper (csv.SystemTransactionRow.Type_ sysRow)
    = (if debit then "DEBIT" else "CREDIT")%string →
  time_Parse csv.RFC3339 (csv.SystemTransactionRow.TransactionTime sysRow)
    = Some t1 →
  ParseFloat (csv.BankStatementRow.Amount bankRow)
    = Some (if debit then PrimFloat.opp a else a) →
  csv.parseDate time_Parse (csv.BankStatementRow.Date bankRow) = Some t2 →
  Go.Date t1 = Go.Date t2 →
  ∃ s b,
    csv.ParseSystemTransaction ParseFloat time_Parse ToUpper now now'
      sysRow jobID fileID = csv.Ok s
    ∧ csv.ParseBankTransaction ParseFloat time_Parse ToUpper now now'
        bankRow jobID' fileID' bankSource = csv.Ok b
    ∧ Matched (Match em [s] [b]).1 = [exactPair em s b]
    ∧ AmountDiscrepancy (exactPair em s b) = 0%float
    ∧ UnmatchedSystem (Match em [s] [b]).1 = []
    ∧ UnmatchedBank (Match em [s] [b]).1 = [].
Proof.
  intros Hpos Hfin HPs Hup Ht1 HPb Ht2 Hday.
  pose proof (ltb_zero_exclusive _ Hpos) as Hneg.
  pose proof (ParseSystemTransaction_outcome_aux ParseFloat time_Parse ToUpper
                now now' sysRow jobID fileID) as Hs.
  rewrite HPs in Hs. cbv zeta in Hs. rewrite Hup, Ht1, Hneg in Hs.
  rewrite bool_decide_eq_false_2 in Hs by (destruct debit; intros [? ?]; done).
  destruct Hs as (s & Hs & _ & HsD & HsA & _ & _ & HsT & _).
  pose proof (ParseBankTransaction_outcome_aux ParseFloat time_Parse ToUpper
                now now' bankRow jobID' fileID' bankSource) as Hb.
  rewrite HPb, Ht2 in Hb.
  destruct Hb as (b & Hb & HbAmt & _ & HbD & _ & HbT & _).
  assert (IsDebit s = debit) as HsD' by (rewrite HsD; by destruct debit).
  assert (IsDebit b = debit) as HbD'.
  { rewrite HbD. destruct debit; [|done]. by rewrite ltb_zero_r_opp. }
  assert (AbsAmount b = a) as HbA.
  { unfold AbsAmount. rewrite HbAmt. destruct debit.
    - by rewrite ltb_zero_r_opp, Hpos, opp_involutive.
    - by rewrite Hneg. }
  assert (isExactMatch em s b = true) as Hex.
  { apply isExactMatch_true. rewrite HsT, HbT, HsD', HbD', HsA, HbA.
    split_and!; try done. by apply amountsEqual_refl_finite. }
  assert (generateKey em b = generateKey em s) as Hkey.
  { apply sameGrouping_generateKey. unfold sameGrouping, sameAmount.
    rewrite HsT, HbT, HsD', HbD', HsA, HbA. auto. }
  exists s, b.
  destruct (Match_single_pair em s b Hkey Hex) as (HM & HU & HB).
  split_and!; try done.
  simpl. unfold calculateDiscrepancy. rewrite HsA, HbA.
  apply amountsEqual_diag. by apply amountsEqual_refl_finite.
Qed.

Lemma opposite_sign_conventions_reconcile_witness :
  ∃ s b,
    csv.ParseSystemTransaction sampleParseFloat sampleParse sampleToUpper
      noon noon sampleSystemRow "cli-job" "system-file" = csv.Ok s
    ∧ csv.ParseBankTransaction sampleParseFloat sampleParse sampleToUpper
        noon noon sampleBankRow "cli-job" "bank-file" "bca" = csv.Ok b
    ∧ Matched (Match exact [s] [b]).1 = [exactPair exact s b]
    ∧ AmountDiscrepancy (exactPair exact s b) = 0%float
    ∧ UnmatchedSystem (Match exact [s] [b]).1 = []
    ∧ UnmatchedBank (Match exact [s] [b]).1 = [].
Proof.
  apply (opposite_sign_conventions_reconcile sampleParseFloat sampleParse
           sampleToUpper noon noon exact sampleSystemRow sampleBankRow
           "cli-job" "system-file" "cli-job" "bank-file" "bca" true 150.50
           (Go.mkTime 2024 3 15 37800000000000) midnight);
    vm_compute; reflexivity.
Defined.

(** ** The bank source of a statement file *)

Section filename_facts.

Lemma Split_no_separator (s : string) (c : ascii) :
  has_char c s = false → Go.Split s c = [s].
Proof.
  induction s as [|a s IH]; simpl; [done|].
  intros [Ha Hs]%orb_false_iff. by rewrite Ha, IH.
Qed.

Lemma Split_first (pre rest : string) (c : ascii) :
  has_char c pre = false →
  Go.Split (pre ++ String c rest) c = pre :: Go.Split rest c.
Proof.
  induction pre as [|a pre IH]; simpl.
  - intros _. by rewrite Ascii.eqb_refl.
  - intros [Ha Hs]%orb_false_iff. by rewrite Ha, IH.
Qed.

Lemma has_slash_app (s1 s2 : string) :
  Go.has_slash (s1 ++ s2) = Go.has_slash s1 || Go.has_slash s2.
Proof.
  induction s1 as [|a s1 IH]; simpl; [done|]. by rewrite IH, orb_assoc.
Qed.

Lemma trimTrailingSlashes_plain (name : string) :
  Go.has_slash name = false → Go.trimTrailingSlashes name = name.
Proof.
  induction name as [|a r IH]; [done|]. simpl.
  intros [Ha Hr]%orb_false_iff. rewrite (IH Hr).
  destruct r; [by rewrite Ha|done].
Qed.

Lemma trimTrailingSlashes_tail (s t : string) :
  t ≠ EmptyString → Go.trimTrailingSlashes t = t →
  Go.trimTrailingSlashes (s ++ t) = (s ++ t)%string.
Proof.
  intros Hne Ht. induction s as [|a s IH]; [done|].
  change (String a s ++ t)%string with (String a (s ++ t)).
  simpl. rewrite IH. destruct (s ++ t)%string eqn:Hs; [|done].
  destruct s as [|a' s'].
  - change (t = EmptyString) in Hs. done.
  - change (String a' (s' ++ t) = EmptyString) in Hs. done.
Qed.

Lemma afterLastSlash_name (dir name : string) :
  Go.has_slash name = false →
  Go.afterLastSlash (dir ++ String "/" name) = name.
Proof.
  intros Hns. induction dir as [|a dir IH]; simpl.
  - by rewrite Hns.
  - rewrite has_slash_app. simpl. by rewrite orb_true_r.
Qed.

Lemma afterLastSlash_plain (name : string) :
  Go.has_slash name = false → Go.afterLastSlash name = name.
Proof.
  destruct name as [|a r]; simpl; [done|].
  by intros [-> ->]%orb_false_iff.
Qed.

(** [Base] drops the directories in front of a file name. *)
Lemma Base_name (dir name : string) :
  name ≠ EmptyString → Go.has_slash name = false →
  Go.Base (dir ++ String "/" name) = name ∧ Go.Base name = name.
Proof.
  intros Hne Hns. unfold Go.Base.
  pose proof (trimTrailingSlashes_plain name Hns) as Ht. split.
  - rewrite trimTrailingSlashes_tail, afterLastSlash_name; [|done..|].
    + destruct dir; by destruct name.
    + simpl. rewrite Ht. by destruct name.
  - rewrite Ht, afterLastSlash_plain by done. by destruct name.
Qed.

Lemma ExtractBankSourceFromFilename_outcome_aux (ToUpper : string → string)
    (filePath : string) :
  (has_char "_" (Go.Base filePath) = false →
   csv.ExtractBankSourceFromFilename ToUpper filePath
   = inr (csv.InvalidFilenameFormat (Go.Base filePath)))
  ∧ (∀ pre rest,
       Go.Base filePath = (pre ++ String "_" rest)%string →
       has_char "_" pre = false →
       csv.ExtractBankSourceFromFilename ToUpper filePath
       = if bool_decide (ToUpper pre = EmptyString)
         then inr (csv.NoBankName (Go.Base filePath))
         else inl (ToUpper pre))
  ∧ (∀ dir name,
       name ≠ EmptyString → Go.has_slash name = false →
       csv.ExtractBankSourceFromFilename ToUpper (dir ++ String "/" name)
       = csv.ExtractBankSourceFromFilename ToUpper name).
Proof.
  unfold csv.ExtractBankSourceFromFilename. split_and!.
  - intros Hno. by rewrite Split_no_separator.
  - intros pre rest Hbase Hpre. rewrite Hbase, Split_first by done.
    replace (Go.len (pre :: Go.Split rest "_") <? 2)%Z with false; [done|].
    symmetry. apply Z.ltb_ge. unfold Go.len.
    destruct rest; simpl; repeat case_match; simpl; lia.
  - intros dir name Hne Hns.
    destruct (Base_name dir name Hne Hns) as [-> ->]. done.
Qed.

End filename_facts.

(** ** The remaining statements on [Match] and its result *)

(** X10: with no bank transactions every system transaction is unmatched,
    in input order, and with no system transactions every bank transaction
    is; nothing is paired in either case. *)
Theorem Match_one_side_empty (em : ExactMatcher) :
  (∀ systemTxns,
     Matched (Match em systemTxns []).1 = []
     ∧ UnmatchedSystem (Match em systemTxns []).1 = systemTxns
     ∧ UnmatchedBank (Match em systemTxns []).1 = [])
  ∧ (∀ bankTxns,
       Matched (Match em [] bankTxns).1 = []
       ∧ UnmatchedSystem (Match em [] bankTxns).1 = []
       ∧ UnmatchedBank (Match em [] bankTxns).1 = bankTxns).
Proof. apply Match_empty_side. Qed.

(** X11: the three partitions keep the order of the input: the system
    sides of the pairs and the unmatched system transactions are
    subsequences of [systemTxns], the unmatched bank transactions are a
    subsequence of [bankTxns]. *)
Theorem Match_keeps_input_order (em : ExactMatcher)
    (systemTxns bankTxns : list Transaction) :
  (SystemTransaction <$> Matched (Match em systemTxns bankTxns).1)
    `sublist_of` systemTxns
  ∧ UnmatchedSystem (Match em systemTxns bankTxns).1 `sublist_of` systemTxns
  ∧ UnmatchedBank (Match em systemTxns bankTxns).1 `sublist_of` bankTxns.
Proof. apply Match_sublists. Qed.

(** X12: when bank IDs are pairwise distinct, a bank transaction is paired
    exactly when it is alone in its bucket and some system transaction has
    its key and passes [isExactMatch] with it. *)
Theorem Match_paired_iff_claimable (em : ExactMatcher)
    (systemTxns bankTxns : list Transaction) (b : Transaction) :
  NoDup (ID <$> bankTxns) → b ∈ bankTxns →
  b ∈ BankTransaction <$> Matched (Match em systemTxns bankTxns).1
  ↔ claimable em bankTxns systemTxns b.
Proof. apply Match_paired_claimable. Qed.

Lemma Match_paired_iff_claimable_witness :
  NoDup (ID <$> statistics_bank)
  ∧ (∀ b, b ∈ statistics_bank →
       b ∈ BankTransaction <$> Matched (Match exact statistics_system statistics_bank).1
       ↔ claimable exact statistics_bank statistics_system b).
Proof.
  assert (NoDup (ID <$> statistics_bank)) as Hids
    by (apply (bool_decide_unpack _); vm_compute; exact I).
  split; [exact Hids|]. intros b Hb.
  exact (Match_paired_iff_claimable exact statistics_system statistics_bank b
           Hids Hb).
Defined.

(** X13: a system transaction whose key no bank transaction has ends in
    [UnmatchedSystem] and in no pair. *)
Theorem Match_without_candidate (em : ExactMatcher)
    (systemTxns bankTxns : list Transaction) (s : Transaction) :
  s ∈ systemTxns →
  (∀ b, b ∈ bankTxns → generateKey em b ≠ generateKey em s) →
  s ∈ UnmatchedSystem (Match em systemTxns bankTxns).1
  ∧ s ∉ SystemTransaction <$> Matched (Match em systemTxns bankTxns).1.
Proof. apply Match_no_candidate. Qed.

Lemma Match_without_candidate_witness :
  statistics_credit ∈ UnmatchedSystem (Match exact statistics_system statistics_bank).1
  ∧ statistics_credit
      ∉ SystemTransaction <$> Matched (Match exact statistics_system statistics_bank).1.
Proof.
  apply (Match_without_candidate exact statistics_system statistics_bank
           statistics_credit).
  - apply list_elem_of_In. right. left. reflexivity.
  - intros b Hb%list_elem_of_In. destruct Hb as [<-|[]].
    vm_compute. discriminate.
Defined.

(** X14: the matcher never reads its configuration. [SetConfig] changes
    neither the result of [Match] nor the exact-match predicate, whose
    amount tolerance stays 0.001 whatever [AmountTolerancePct] says; any
    two matchers give the same result. *)
Theorem Match_ignores_config (em em' : ExactMatcher) (cfg : MatcherConfig)
    (systemTxns bankTxns : list Transaction) (s b : Transaction) :
  Match (SetConfig em cfg) systemTxns bankTxns = Match em systemTxns bankTxns
  ∧ Match em systemTxns bankTxns = Match em' systemTxns bankTxns
  ∧ isExactMatch (SetConfig em cfg) s b = isExactMatch em s b
  ∧ generateKey (SetConfig em cfg) s = generateKey em s.
Proof. split_and!; try done; apply Match_any_matcher. Qed.

(** X15: the exact-match predicate and the discrepancy do not depend on
    which of the two transactions is called the system one. *)
Theorem isExactMatch_symmetric (em : ExactMatcher) (t1 t2 : Transaction) :
  isExactMatch em t1 t2 = isExactMatch em t2 t1
  ∧ calculateDiscrepancy em t1 t2 = calculateDiscrepancy em t2 t1.
Proof. apply isExactMatch_comm. Qed.

(** X16: the total discrepancy [Match] reports is never negative: it sums
    the discrepancies of the pairs and the absolute amounts of all
    unmatched transactions, none of which is negative. *)
Theorem Match_TotalDiscrepancy_never_negative (em : ExactMatcher)
    (systemTxns bankTxns : list Transaction) :
  PrimFloat.ltb (TotalDiscrepancy (Match em systemTxns bankTxns).1) 0 = false.
Proof. apply Match_TotalDiscrepancy_sign. Qed.

(** X17: the report never prints the section of matched transactions with
    discrepancies for a result of [Match]: no pair has a discrepancy above
    0.001, the threshold of the report, because [isExactMatch] only passes
    pairs below it. *)
Theorem Match_report_lists_no_discrepancy (em : ExactMatcher)
    (systemTxns bankTxns : list Transaction) :
  report.hasDiscrepancies (Match em systemTxns bankTxns).1 = false
  ∧ report.listedDiscrepancies (Match em systemTxns bankTxns).1 = [].
Proof. apply Match_report_discrepancies. Qed.

(** X18: what [formatAmount] keeps of an amount. Amounts whose whole cents,
    as a rune, are a valid code point have the same text exactly when they
    have the same whole cents; all amounts whose cents are not a valid code
    point (negative, a surrogate, or above 0x10FFFF, that is 11141.11 and
    more) have the text of U+FFFD. *)
Theorem formatAmount_resolution (a b : float) :
  (validRune (keyRune a) → validRune (keyRune b) →
   formatAmount a = formatAmount b ↔ keyRune a = keyRune b)
  ∧ (¬ validRune (keyRune a) → ¬ validRune (keyRune b) →
     formatAmount a = formatAmount b)
  ∧ (¬ validRune (keyRune a) → formatAmount a = Go.string_of_rune Go.RuneError).
Proof. apply formatAmount_resolution_aux. Qed.

Lemma formatAmount_resolution_witness :
  formatAmount 20000 = formatAmount 30000
  ∧ formatAmount 150.5004 = formatAmount 150.5001.
Proof.
  assert (∀ r, (1114111 < r)%Z → ¬ validRune r) as Hhigh
    by (intros r Hr [[_ H] _]; lia).
  assert (∀ r, (0 ≤ r < 55296)%Z → validRune r) as Hlow
    by (intros r Hr; split; lia).
  split.
  - apply (proj1 (proj2 (formatAmount_resolution 20000 30000)));
      apply Hhigh; vm_compute; reflexivity.
  - apply (proj1 (formatAmount_resolution 150.5004 150.5001)).
    + apply Hlow. vm_compute. split; [discriminate|reflexivity].
    + apply Hlow. vm_compute. split; [discriminate|reflexivity].
    + vm_compute. reflexivity.
Defined.

(** X19: the counts of the report add up. When bank IDs are pairwise
    distinct and the sizes fit an [int], the result of [Match] carries the
    sizes of the two inputs as its totals, and the number of processed
    transactions the report prints is twice the number of pairs plus the
    number of unmatched transactions. *)
Theorem Match_report_counts (em : ExactMatcher)
    (systemTxns bankTxns : list Transaction) :
  NoDup (ID <$> bankTxns) →
  (Go.len systemTxns + Go.len bankTxns < 2 ^ 63)%Z →
  TotalSystemTxns (Match em systemTxns bankTxns).1 = Go.len systemTxns
  ∧ TotalBankTxns (Match em systemTxns bankTxns).1 = Go.len bankTxns
  ∧ report.totalProcessed (Match em systemTxns bankTxns).1
    = (Go.len systemTxns + Go.len bankTxns)%Z
  ∧ report.totalProcessed (Match em systemTxns bankTxns).1
    = (2 * TotalMatched (Match em systemTxns bankTxns).1
       + report.totalUnmatched (Match em systemTxns bankTxns).1)%Z.
Proof.
  intros Hids Hfit.
  destruct (Match_system_partition em systemTxns bankTxns) as [_ Hs].
  destruct (Match_bank_partition em systemTxns bankTxns Hids) as [_ Hb].
  unfold report.totalProcessed, report.totalUnmatched.
  change (TotalSystemTxns (Match em systemTxns bankTxns).1)
    with (Go.int_add (Go.len (Matched (Match em systemTxns bankTxns).1))
            (Go.len (UnmatchedSystem (Match em systemTxns bankTxns).1))).
  change (TotalBankTxns (Match em systemTxns bankTxns).1)
    with (Go.int_add (Go.len (Matched (Match em systemTxns bankTxns).1))
            (Go.len (UnmatchedBank (Match em systemTxns bankTxns).1))).
  change (TotalMatched (Match em systemTxns bankTxns).1)
    with (Go.len (Matched (Match em systemTxns bankTxns).1)).
  unfold Go.int_add, Go.len in *.
  rewrite !wrap64_small by lia. rewrite ?wrap64_small by lia. lia.
Qed.

Lemma Match_report_counts_witness :
  TotalSystemTxns (Match exact statistics_system statistics_bank).1 = 2%Z
  ∧ TotalBankTxns (Match exact statistics_system statistics_bank).1 = 1%Z
  ∧ report.totalProcessed (Match exact statistics_system statistics_bank).1 = 3%Z
  ∧ report.totalProcessed (Match exact statistics_system statistics_bank).1
    = (2 * TotalMatched (Match exact statistics_system statistics_bank).1
       + report.totalUnmatched (Match exact statistics_system statistics_bank).1)%Z.
Proof.
  apply (Match_report_counts exact statistics_system statistics_bank).
  - apply (bool_decide_unpack _). vm_compute. exact I.
  - vm_compute. reflexivity.
Defined.

(** ** The bank source, from the path of the statement file *)

(** X20: [ExtractBankSourceFromFilename] looks at the last element of the
    path only. A file name without an underscore is refused; otherwise the
    bank source is the upper-cased text before the first underscore, and
    the name is refused when that text is empty. The directories in front
    of a file name do not change the outcome. *)
Theorem ExtractBankSourceFromFilename_outcome (ToUpper : string → string)
    (filePath : string) :
  (has_char "_" (Go.Base filePath) = false →
   csv.ExtractBankSourceFromFilename ToUpper filePath
   = inr (csv.InvalidFilenameFormat (Go.Base filePath)))
  ∧ (∀ pre rest,
       Go.Base filePath = (pre ++ String "_" rest)%string →
       has_char "_" pre = false →
       csv.ExtractBankSourceFromFilename ToUpper filePath
       = if bool_decide (ToUpper pre = EmptyString)
         then inr (csv.NoBankName (Go.Base filePath))
         else inl (ToUpper pre))
  ∧ (∀ dir name,
       name ≠ EmptyString → Go.has_slash name = false →
       csv.ExtractBankSourceFromFilename ToUpper (dir ++ String "/" name)
       = csv.ExtractBankSourceFromFilename ToUpper name).
Proof. apply ExtractBankSourceFromFilename_outcome_aux. Qed.

Lemma ExtractBankSourceFromFilename_outcome_witness :
  csv.ExtractBankSourceFromFilename sampleToUpper
    "fixtures/bca_statement_2024-03-15.csv" = inl "BCA"%string
  ∧ csv.ExtractBankSourceFromFilename sampleToUpper "fixtures/statement.csv"
    = inr (csv.InvalidFilenameFormat "statement.csv")
  ∧ csv.ExtractBankSourceFromFilename sampleToUpper "fixtures/_statement.csv"
    = inr (csv.NoBankName "_statement.csv").
Proof.
  split_and!.
  - exact (proj1 (proj2 (ExtractBankSourceFromFilename_outcome sampleToUpper
                           "fixtures/bca_statement_2024-03-15.csv"))
             "bca"%string "statement_2024-03-15.csv"%string eq_refl eq_refl).
  - exact (proj1 (ExtractBankSourceFromFilename_outcome sampleToUpper
                    "fixtures/statement.csv") eq_refl).
  - exact (proj1 (proj2 (ExtractBankSourceFromFilename_outcome sampleToUpper
                           "fixtures/_statement.csv"))
             EmptyString "statement.csv"%string eq_refl eq_refl).
Defined.

(** ** Ambiguity, when bank IDs are pairwise distinct *)

(** X21: ambiguity conservatism holds when the bank IDs are pairwise
    distinct. If, when the loop reaches a system transaction, two bank
    transactions have its grouping key (calendar date, debit polarity,
    absolute amount) and neither is in a pair yet, the system transaction
    is appended to the unmatched system transactions, no pair is emitted
    and no bank transaction is marked; the system transaction is unmatched
    in the result, and every bank transaction that is in no pair of the
    result is among its unmatched bank transactions. *)
Theorem ambiguity_with_distinct_IDs (em : ExactMatcher)
    (pre post bankTxns : list Transaction) (s b1 b2 : Transaction)
    (i j : nat) :
  NoDup (ID <$> bankTxns) →
  bankTxns !! i = Some b1 → bankTxns !! j = Some b2 → i ≠ j →
  sameGrouping b1 s → sameGrouping b2 s →
  b1 ∉ BankTransaction <$> Matched (result (runSystemLoop em pre bankTxns)) →
  b2 ∉ BankTransaction <$> Matched (result (runSystemLoop em pre bankTxns)) →
  UnmatchedSystem (result (runSystemLoop em (pre ++ [s]) bankTxns))
  = UnmatchedSystem (result (runSystemLoop em pre bankTxns)) ++ [s]
  ∧ Matched (result (runSystemLoop em (pre ++ [s]) bankTxns))
    = Matched (result (runSystemLoop em pre bankTxns))
  ∧ matchedBankTxns (runSystemLoop em (pre ++ [s]) bankTxns)
    = matchedBankTxns (runSystemLoop em pre bankTxns)
  ∧ s ∈ UnmatchedSystem (Match em (pre ++ s :: post) bankTxns).1
  ∧ (∀ b, b ∈ bankTxns →
          b ∉ BankTransaction <$> Matched (Match em (pre ++ s :: post) bankTxns).1 →
          b ∈ UnmatchedBank (Match em (pre ++ s :: post) bankTxns).1).
Proof.
  intros Hids Hi Hj Hij Hg1 Hg2 Hn1 Hn2.
  destruct (ambiguous_unmarked_candidates em pre post bankTxns s b1 b2 i j)
    as [Hstep Hs]; try done.
  - apply unpaired_unmarked; try done. by eapply list_elem_of_lookup_2.
  - apply unpaired_unmarked; try done. by eapply list_elem_of_lookup_2.
  - rewrite Hstep. split_and!; try done.
    intros b Hb Hnot. rewrite Match_Matched in Hnot.
    rewrite Match_UnmatchedBank. apply elem_of_app. right.
    apply list_elem_of_filter. split; [|done]. by apply unpaired_unmarked.
Qed.

Lemma ambiguity_with_distinct_IDs_witness :
  UnmatchedSystem (result (runSystemLoop exact ([] ++ [ambiguous_system]) ambiguous_bank))
  = UnmatchedSystem (result (runSystemLoop exact [] ambiguous_bank))
      ++ [ambiguous_system]
  ∧ Matched (result (runSystemLoop exact ([] ++ [ambiguous_system]) ambiguous_bank))
    = Matched (result (runSystemLoop exact [] ambiguous_bank))
  ∧ matchedBankTxns (runSystemLoop exact ([] ++ [ambiguous_system]) ambiguous_bank)
    = matchedBankTxns (runSystemLoop exact [] ambiguous_bank)
  ∧ ambiguous_system
    ∈ UnmatchedSystem (Match exact ([] ++ ambiguous_system :: []) ambiguous_bank).1
  ∧ (∀ b, b ∈ ambiguous_bank →
          b ∉ BankTransaction
                <$> Matched (Match exact ([] ++ ambiguous_system :: []) ambiguous_bank).1 →
          b ∈ UnmatchedBank (Match exact ([] ++ ambiguous_system :: []) ambiguous_bank).1).
Proof.
  refine (ambiguity_with_distinct_IDs exact [] [] ambiguous_bank
            ambiguous_system _ _ 0 1 _ _ _ _ _ _ _ _).
  - apply (bool_decide_unpack _). vm_compute. exact I.
  - reflexivity.
  - reflexivity.
  - lia.
  - split_and!; [reflexivity|reflexivity|left; reflexivity].
  - split_and!; [reflexivity|reflexivity|left; reflexivity].
  - intros H. apply list_elem_of_fmap in H as (p & _ & Hp).
    by apply elem_of_nil in Hp.
  - intros H. apply list_elem_of_fmap in H as (p & _ & Hp).
    by apply elem_of_nil in Hp.
Defined.
